(** * ankiplace: the canvas, the paint ledger and the review-proof store

    A shallow embedding of [src/main.py].  The three SQLite tables become
    finite maps and a finite set, a connection becomes a pair of the
    committed file and the working copy of the open transaction, and every
    route handler becomes a function from the database before the request
    to the response and the database after it. *)

From stdpp Require Import gmap strings list fin_maps.

Open Scope Z_scope.

(** ** Values

    [time.time()] and the [timestamp] of a review proof are Python floats
    kept in REAL columns.  The code never computes with them: it stores them
    and compares proof keys for equality, so a float that is a number is
    modelled as an exact number.  A float sent by a client can also be NaN,
    which sqlite3 stores as NULL.  Integers are Python integers ([Z]), of
    which an INTEGER column takes those of 64 bits; a user identifier is a
    string. *)

Abbreviation REAL := Z (only parsing).

(** A Python float as a request can carry it.  [time.time()] is always a
    number. *)
Inductive float :=
| num (v : REAL)
| nan.

(** What a handler can raise: the [HTTPException]s of the source, the
    [sqlite3.IntegrityError] of an INSERT that repeats a primary key, and
    the [OverflowError] of a statement given an integer that does not fit
    an INTEGER. *)
Inductive exn :=
| HTTPException (status_code : Z) (detail : string)
| IntegrityError
| OverflowError.

Inductive response (A : Type) :=
| Ok (a : A)
| Raise (e : exn).
Arguments Ok {A} a.
Arguments Raise {A} e.

(** The error kinds of the specification, as the handlers raise them. *)
Definition OutOfBounds : exn := HTTPException 400 "Coordinates out of bounds".
Definition InvalidColor : exn := HTTPException 400 "Invalid color index (0-15)".
Definition InsufficientFunds : exn :=
  HTTPException 403 "Not enough paint drops. Study more cards!".
Definition NotFound_paint : exn :=
  HTTPException 404 "User ID not found. Register first.".
Definition NotFound : exn := HTTPException 404 "User not found".

(** ** Request models (the pydantic classes) *)

Module PixelUpdate.
Record t := mk { x : Z; y : Z; color : Z; user_id : string }.
End PixelUpdate.

Module UserRegister.
Record t := mk { username : string }.
End UserRegister.

Module ReviewProof.
Record t := mk { card_id : Z; timestamp : float }.
End ReviewProof.

Module ReviewSubmission.
Record t := mk { user_id : string; proofs : list ReviewProof.t }.
End ReviewSubmission.

(** ** Tables *)

(** A row of [canvas], without its key [(x, y)]. *)
Module Canvas.
Record row := mk { color : Z; last_user_id : option string; last_modified : REAL }.
End Canvas.

(** A row of [users], without its key [user_id]. *)
Module Users.
Record row := mk { username : string; paint_balance : Z; created_at : REAL }.
End Users.

(** The database file: [canvas] keyed by [(x, y)], [users] keyed by
    [user_id], and the table of review proofs.  Its rows with a timestamp
    are their own primary key [(user_id, card_id, timestamp)]: they are the
    set [review_proofs].  Its rows whose timestamp is NULL are not
    constrained by the key, which takes two NULLs to differ, and no
    comparison [timestamp = ?] selects them: they are the list
    [review_proofs_null] of their [(user_id, card_id)], repeats included. *)
Record db := mkdb {
  canvas : gmap (Z * Z) Canvas.row;
  users : gmap string Users.row;
  review_proofs : gset (string * Z * Z);
  review_proofs_null : list (string * Z)
}.

(** A connection: the committed [file] and the working copy [txn] that the
    statements of the open transaction read and write.  [commit] writes the
    working copy through; [close] leaves the file as last committed. *)
Record connection := mkconn { file : db; txn : db }.

Definition get_db_connection (d : db) : connection := mkconn d d.
Definition execute (f : db → db) (conn : connection) : connection :=
  mkconn (file conn) (f (txn conn)).
Definition commit (conn : connection) : connection :=
  mkconn (txn conn) (txn conn).
Definition close (conn : connection) : db := file conn.

(** ** Statements *)

(** [SELECT paint_balance FROM users WHERE user_id = ?], then [fetchone]. *)
Definition select_paint_balance (user_id : string) (t : db) : option Z :=
  Users.paint_balance <$> users t !! user_id.

(** [UPDATE canvas SET color, last_user_id, last_modified WHERE x, y]. *)
Definition update_canvas (x y color : Z) (user_id : string) (timestamp : REAL)
    (t : db) : db :=
  mkdb (alter (λ _, Canvas.mk color (Some user_id) timestamp) (x, y) (canvas t))
       (users t) (review_proofs t) (review_proofs_null t).

(** [UPDATE users SET paint_balance = paint_balance + ? WHERE user_id = ?]. *)
Definition add_paint_balance (amount : Z) (user_id : string) (t : db) : db :=
  mkdb (canvas t)
       (alter (λ u, Users.mk (Users.username u) (Users.paint_balance u + amount)
                             (Users.created_at u)) user_id (users t))
       (review_proofs t) (review_proofs_null t).

(** [INSERT INTO canvas (x, y, color, last_user_id, last_modified)]. *)
Definition insert_canvas (x y : Z) (r : Canvas.row) (t : db) : db :=
  mkdb (<[(x, y) := r]> (canvas t)) (users t) (review_proofs t)
       (review_proofs_null t).

(** [INSERT INTO users (user_id, username, created_at)]: [paint_balance]
    takes its DEFAULT 0; a repeated primary key is refused. *)
Definition insert_user (user_id username : string) (created_at : REAL) (t : db)
    : option db :=
  match users t !! user_id with
  | Some _ => None
  | None => Some (mkdb (canvas t)
                       (<[user_id := Users.mk username 0 created_at]> (users t))
                       (review_proofs t) (review_proofs_null t))
  end.

(** What sqlite3 makes of the parameters of a statement: an integer must
    fit 64 bits, or [execute] raises; a NaN becomes NULL ([None]). *)
Definition bind_int (n : Z) : response Z :=
  if bool_decide (- 2 ^ 63 ≤ n < 2 ^ 63) then Ok n else Raise OverflowError.
Definition bind_float (f : float) : option REAL :=
  match f with
  | num v => Some v
  | nan => None
  end.

(** [SELECT 1 FROM review_proofs WHERE user_id, card_id, timestamp], then
    [fetchone]: is there such a row?  [timestamp = NULL] holds of no row. *)
Definition select_proof (user_id : string) (card_id : Z) (timestamp : option REAL)
    (t : db) : bool :=
  match timestamp with
  | Some v => bool_decide ((user_id, card_id, v) ∈ review_proofs t)
  | None => false
  end.

(** [INSERT INTO review_proofs (user_id, card_id, timestamp)]. *)
Definition insert_proof (user_id : string) (card_id : Z) (timestamp : option REAL)
    (t : db) : db :=
  match timestamp with
  | Some v =>
      mkdb (canvas t) (users t) ({[ (user_id, card_id, v) ]} ∪ review_proofs t)
           (review_proofs_null t)
  | None =>
      mkdb (canvas t) (users t) (review_proofs t)
           (review_proofs_null t ++ [(user_id, card_id)])
  end.

(** ** [init_db] *)

Definition range (n : Z) : list Z := seqZ 0 n.

(** The tables exist in every [db]; the canvas is filled when it is empty,
    [x] in the outer loop and [y] in the inner one. *)
Definition init_db (d : db) : db :=
  let conn := get_db_connection d in
  let conn :=
    if bool_decide (size (canvas (txn conn)) = 0%nat) then
      foldl (λ conn x,
               foldl (λ conn y, execute (insert_canvas x y (Canvas.mk 0 None 0)) conn)
                     conn (range 32))
            conn (range 32)
    else conn in
  let conn := commit conn in
  close conn.

(** The database file before the first start. *)
Definition empty_db : db := mkdb ∅ ∅ ∅ [].

(** ** Routes *)

(** [GET /canvas]: the rows are read in the order the table yields them and
    written into a flat list of 32 * 32 zeros. *)
Definition write_row (grid : list Z) (row : Z * Z * Canvas.row) : list Z :=
  let idx := row.1.2 * 32 + row.1.1 in
  if bool_decide (0 ≤ idx < 1024)
  then <[Z.to_nat idx := Canvas.color row.2]> grid
  else grid.

Definition get_canvas (d : db) : list Z :=
  let rows := map_to_list (canvas d) in
  foldl write_row (replicate (Z.to_nat (32 * 32)) 0) rows.

Module PixelDetails.
Record t := mk {
  x : Z; y : Z; color : Z; last_user_id : option string;
  username : option string; last_modified : REAL
}.
End PixelDetails.

(** [GET /pixel/{x}/{y}]: the LEFT JOIN leaves [username] empty when the
    last editor is no row of [users]; [None] is the "Pixel not found"
    answer. *)
Definition get_pixel_details (x y : Z) (d : db) : response (option PixelDetails.t) :=
  if negb (bool_decide (0 ≤ x < 32) && bool_decide (0 ≤ y < 32)) then
    Raise OutOfBounds
  else
    match canvas d !! (x, y) with
    | Some row =>
        Ok (Some (PixelDetails.mk x y (Canvas.color row) (Canvas.last_user_id row)
                    (Canvas.last_user_id row ≫= λ u, Users.username <$> users d !! u)
                    (Canvas.last_modified row)))
    | None => Ok None
    end.

Module PaintResult.
Record t := mk { x : Z; y : Z; color : Z }.
End PaintResult.

(** [POST /paint].  [timestamp] is the reading of [time.time()]. *)
Definition paint_pixel (pixel : PixelUpdate.t) (timestamp : REAL) (d : db)
    : response PaintResult.t * db :=
  if negb (bool_decide (0 ≤ PixelUpdate.x pixel < 32)
           && bool_decide (0 ≤ PixelUpdate.y pixel < 32)) then
    (Raise OutOfBounds, d)
  else if negb (bool_decide (0 ≤ PixelUpdate.color pixel < 16)) then
    (Raise InvalidColor, d)
  else
    let conn := get_db_connection d in
    match select_paint_balance (PixelUpdate.user_id pixel) (txn conn) with
    | None => (Raise NotFound_paint, close conn)
    | Some paint_balance =>
        if bool_decide (paint_balance < 1) then
          (Raise InsufficientFunds, close conn)
        else
          let conn :=
            execute (update_canvas (PixelUpdate.x pixel) (PixelUpdate.y pixel)
                       (PixelUpdate.color pixel) (PixelUpdate.user_id pixel)
                       timestamp) conn in
          let conn := execute (add_paint_balance (-1) (PixelUpdate.user_id pixel)) conn in
          let conn := commit conn in
          (Ok (PaintResult.mk (PixelUpdate.x pixel) (PixelUpdate.y pixel)
                 (PixelUpdate.color pixel)),
           close conn)
    end.

(** [POST /user].  [new_id] is the value of [uuid.uuid4()] and [timestamp]
    the reading of [time.time()].  An INSERT that raises is not committed. *)
Definition register_user (user : UserRegister.t) (new_id : string)
    (timestamp : REAL) (d : db) : response (string * string) * db :=
  let conn := get_db_connection d in
  match insert_user new_id (UserRegister.username user) timestamp (txn conn) with
  | None => (Raise IntegrityError, close conn)
  | Some t =>
      let conn := commit (mkconn (file conn) t) in
      (Ok (new_id, UserRegister.username user), close conn)
  end.

Module SubmitResult.
Record t := mk { new_proofs : Z; paint_awarded : Z }.
End SubmitResult.

(** One turn of the loop over [submission.proofs], from the connection and
    [new_proofs_count] before it: the SELECT binds the card identifier and
    the timestamp of the proof and raises if the identifier does not fit;
    when it finds no row, the proof is inserted and counted. *)
Definition record_proof (user_id : string) (conn : connection)
    (new_proofs_count : Z) (proof : ReviewProof.t) : response Z * connection :=
  match bind_int (ReviewProof.card_id proof) with
  | Raise e => (Raise e, conn)
  | Ok card_id =>
      let timestamp := bind_float (ReviewProof.timestamp proof) in
      if select_proof user_id card_id timestamp (txn conn) then
        (Ok new_proofs_count, conn)
      else
        (Ok (new_proofs_count + 1),
         execute (insert_proof user_id card_id timestamp) conn)
  end.

(** The loop: an exception ends it, with the connection as it is then. *)
Fixpoint record_proofs (user_id : string) (proofs : list ReviewProof.t)
    (conn : connection) (new_proofs_count : Z) : response Z * connection :=
  match proofs with
  | [] => (Ok new_proofs_count, conn)
  | proof :: proofs =>
      match record_proof user_id conn new_proofs_count proof with
      | (Ok new_proofs_count, conn) =>
          record_proofs user_id proofs conn new_proofs_count
      | (Raise e, conn) => (Raise e, conn)
      end
  end.

(** The body of [submit_reviews] on an open connection, up to (and without)
    the final [conn.close()]; an exception of the loop leaves before the
    commit. *)
Definition submit_reviews_conn (submission : ReviewSubmission.t) (conn : connection)
    : response SubmitResult.t * connection :=
  match select_paint_balance (ReviewSubmission.user_id submission) (txn conn) with
  | None => (Raise NotFound, conn)
  | Some current_balance =>
      match record_proofs (ReviewSubmission.user_id submission)
              (ReviewSubmission.proofs submission) conn 0 with
      | (Raise e, conn) => (Raise e, conn)
      | (Ok new_proofs_count, conn) =>
          let paint_awarded := new_proofs_count `div` 10 in
          let conn :=
            if bool_decide (paint_awarded > 0) then
              execute (add_paint_balance paint_awarded
                         (ReviewSubmission.user_id submission)) conn
            else conn in
          let conn := commit conn in
          (Ok (SubmitResult.mk new_proofs_count paint_awarded), conn)
      end
  end.

(** [POST /submit-reviews].  The route's dependency [verify_secret] is
    resolved by the framework before the handler is called; this is the
    handler.  A connection left by an exception is not committed. *)
Definition submit_reviews (submission : ReviewSubmission.t) (d : db)
    : response SubmitResult.t * db :=
  let r := submit_reviews_conn submission (get_db_connection d) in
  (r.1, close r.2).

(** [GET /user/{user_id}/balance]. *)
Definition get_balance (user_id : string) (d : db) : response (string * Z) :=
  match select_paint_balance user_id d with
  | Some paint_balance => Ok (user_id, paint_balance)
  | None => Raise NotFound
  end.

(** [GET /user/{user_id}]. *)
Definition get_user (user_id : string) (d : db) : response (string * string * REAL) :=
  match users d !! user_id with
  | Some row => Ok (user_id, Users.username row, Users.created_at row)
  | None => Raise NotFound
  end.

(** ** The service as a transition system *)

Inductive request :=
| POST_user (user : UserRegister.t) (new_id : string) (timestamp : REAL)
| POST_submit_reviews (submission : ReviewSubmission.t)
| POST_paint (pixel : PixelUpdate.t) (timestamp : REAL)
| GET_canvas
| GET_pixel (x y : Z)
| GET_balance (user_id : string)
| GET_user (user_id : string).

(** The database a request leaves behind; the GET routes write nothing. *)
Definition handle (req : request) (d : db) : db :=
  match req with
  | POST_user user new_id timestamp => (register_user user new_id timestamp d).2
  | POST_submit_reviews submission => (submit_reviews submission d).2
  | POST_paint pixel timestamp => (paint_pixel pixel timestamp d).2
  | GET_canvas | GET_pixel _ _ | GET_balance _ | GET_user _ => d
  end.

(** The states of the service when requests are served one at a time,
    each handler running to its end before the next starts: [init_db] runs
    once on the fresh file when the module is loaded, then the requests. *)
Inductive reachable : db → Prop :=
| reachable_init : reachable (init_db empty_db)
| reachable_step req d : reachable d → reachable (handle req d).

(** ** Requests served at the same time

    Every request opens a connection of its own, and the framework runs the
    handlers, which are plain functions, in threads.  [paint_pixel] reads the
    balance with a SELECT outside any transaction; only its two UPDATEs and
    the commit are one write transaction, which SQLite lets no other writer
    into.  So other requests can be served between the checks of a paint and
    its write. *)

(** [paint_pixel] up to and with its balance check: what it raises there,
    if anything. *)
Definition paint_pixel_check (pixel : PixelUpdate.t) (d : db) : response unit :=
  if negb (bool_decide (0 ≤ PixelUpdate.x pixel < 32)
           && bool_decide (0 ≤ PixelUpdate.y pixel < 32)) then
    Raise OutOfBounds
  else if negb (bool_decide (0 ≤ PixelUpdate.color pixel < 16)) then
    Raise InvalidColor
  else
    match select_paint_balance (PixelUpdate.user_id pixel) d with
    | None => Raise NotFound_paint
    | Some paint_balance =>
        if bool_decide (paint_balance < 1) then Raise InsufficientFunds
        else Ok ()
    end.

(** [paint_pixel] from [timestamp = time.time()] on: the two UPDATEs and the
    commit, on the database as it is by then. *)
Definition paint_pixel_write (pixel : PixelUpdate.t) (timestamp : REAL) (d : db)
    : response PaintResult.t * db :=
  let conn := get_db_connection d in
  let conn :=
    execute (update_canvas (PixelUpdate.x pixel) (PixelUpdate.y pixel)
               (PixelUpdate.color pixel) (PixelUpdate.user_id pixel)
               timestamp) conn in
  let conn := execute (add_paint_balance (-1) (PixelUpdate.user_id pixel)) conn in
  let conn := commit conn in
  (Ok (PaintResult.mk (PixelUpdate.x pixel) (PixelUpdate.y pixel)
         (PixelUpdate.color pixel)),
   close conn).

(** The states of the service when paints overlap with other requests:
    [interleaved waiting d] has the database [d] and the paints [waiting]
    that have passed their checks and not written yet. *)
Inductive interleaved : list PixelUpdate.t → db → Prop :=
| interleaved_init : interleaved [] (init_db empty_db)
| interleaved_request req waiting d :
    interleaved waiting d → interleaved waiting (handle req d)
| interleaved_check pixel waiting d :
    interleaved waiting d →
    paint_pixel_check pixel d = Ok () →
    interleaved (pixel :: waiting) d
| interleaved_write pixel timestamp waiting1 waiting2 d :
    interleaved (waiting1 ++ pixel :: waiting2) d →
    interleaved (waiting1 ++ waiting2) (paint_pixel_write pixel timestamp d).2.

(** ** Vocabulary of the statements below *)

(** The two validations of [paint_pixel], as propositions. *)
Definition in_grid (pixel : PixelUpdate.t) : Prop :=
  0 ≤ PixelUpdate.x pixel < 32 ∧ 0 ≤ PixelUpdate.y pixel < 32.
Definition in_palette (pixel : PixelUpdate.t) : Prop :=
  0 ≤ PixelUpdate.color pixel < 16.

(** The database a successful paint commits. *)
Definition painted (pixel : PixelUpdate.t) (timestamp : REAL) (d : db) : db :=
  add_paint_balance (-1) (PixelUpdate.user_id pixel)
    (update_canvas (PixelUpdate.x pixel) (PixelUpdate.y pixel)
       (PixelUpdate.color pixel) (PixelUpdate.user_id pixel) timestamp d).

(** The primary key under which a proof of [user_id] is stored, when its
    timestamp is a number. *)
Definition proof_key (user_id : string) (proof : ReviewProof.t)
    : option (string * Z * Z) :=
  match ReviewProof.timestamp proof with
  | num v => Some (user_id, ReviewProof.card_id proof, v)
  | nan => None
  end.

(** The row a proof of [user_id] is stored as when its timestamp is NaN. *)
Definition null_row (user_id : string) (proof : ReviewProof.t)
    : option (string * Z) :=
  match ReviewProof.timestamp proof with
  | num _ => None
  | nan => Some (user_id, ReviewProof.card_id proof)
  end.

(** The card identifiers of [proofs] fit an INTEGER. *)
Definition sqlite_ints (proofs : list ReviewProof.t) : Prop :=
  Forall (λ proof, - 2 ^ 63 ≤ ReviewProof.card_id proof < 2 ^ 63) proofs.

#[global] Instance sqlite_ints_dec proofs : Decision (sqlite_ints proofs).
Proof. unfold sqlite_ints. apply _. Defined.

(** No timestamp of [proofs] is NaN. *)
Definition numbers (proofs : list ReviewProof.t) : Prop :=
  Forall (λ proof, ReviewProof.timestamp proof ≠ nan) proofs.

#[global] Instance float_eq_dec : EqDecision float.
Proof. solve_decision. Defined.

#[global] Instance ReviewProof_eq_dec : EqDecision ReviewProof.t.
Proof. solve_decision. Defined.

#[global] Instance numbers_dec proofs : Decision (numbers proofs).
Proof. unfold numbers. apply _. Defined.

(** A proof is not recorded for [user_id] under its key. *)
Definition unrecorded (user_id : string) (d : db) (proof : ReviewProof.t) : Prop :=
  match proof_key user_id proof with
  | Some k => k ∉ review_proofs d
  | None => True
  end.

#[global] Instance unrecorded_dec user_id d proof :
  Decision (unrecorded user_id d proof).
Proof. unfold unrecorded. destruct (proof_key user_id proof); apply _. Defined.

(** [proofs] are pairwise distinct and none of them is recorded for
    [user_id] yet. *)
Definition distinct_new (user_id : string) (proofs : list ReviewProof.t) (d : db)
    : Prop :=
  NoDup proofs ∧ Forall (unrecorded user_id d) proofs.

#[global] Instance distinct_new_dec user_id proofs d :
  Decision (distinct_new user_id proofs d).
Proof. unfold distinct_new. apply _. Defined.

(** No balance is negative. *)
Definition balances_nonneg (d : db) : Prop :=
  ∀ user_id u, users d !! user_id = Some u → 0 ≤ Users.paint_balance u.

(** The canvas has a row for exactly the cells of the 32 x 32 grid. *)
Definition canvas_full (d : db) : Prop :=
  ∀ x y, is_Some (canvas d !! (x, y)) ↔ 0 ≤ x < 32 ∧ 0 ≤ y < 32.

(** The balance [GET /user/{user_id}/balance] reports, if the user exists. *)
Definition balance (user_id : string) (d : db) : option Z :=
  match get_balance user_id d with
  | Ok r => Some r.2
  | Raise _ => None
  end.

(** ** Sample data *)

Definition bob : string := "bob".
Definition eve : string := "eve".

(** A started service with one registered user, who has earned nothing. *)
Definition db_registered : db :=
  handle (POST_user (UserRegister.mk "Bob") bob 100) (init_db empty_db).

(** [n] proofs with card identifiers [a], [a + 1], ... *)
Definition cards (a n : Z) : list ReviewProof.t :=
  (λ i, ReviewProof.mk i (num 200)) <$> seqZ a n.

(** The same, with NaN as their timestamp. *)
Definition cards_nan (a n : Z) : list ReviewProof.t :=
  (λ i, ReviewProof.mk i nan) <$> seqZ a n.

(** The same service after [bob] has handed in 25 fresh proofs. *)
Definition db_funded : db :=
  handle (POST_submit_reviews (ReviewSubmission.mk bob (cards 0 25))) db_registered.

(** ** Runs of requests and further vocabulary *)

(** The database after a sequence of requests, served one by one. *)
Definition run (reqs : list request) (d : db) : db :=
  foldl (λ d req, handle req d) d reqs.

(** The keys under which the proofs of a batch of [user_id] are stored,
    those with a number as timestamp; and the rows of the others, one for
    each. *)
Definition proof_keys (user_id : string) (proofs : list ReviewProof.t)
    : gset (string * Z * Z) :=
  list_to_set (omap (proof_key user_id) proofs).
Definition null_rows (user_id : string) (proofs : list ReviewProof.t)
    : list (string * Z) :=
  omap (null_row user_id) proofs.

(** The recorded proofs of one user: the rows with a timestamp, the rows
    without, and how many rows that is. *)
Definition proofs_of (user_id : string) (d : db) : gset (string * Z * Z) :=
  filter (λ k, k.1.1 = user_id) (review_proofs d).
Definition null_proofs_of (user_id : string) (d : db) : list (string * Z) :=
  filter (λ r, r.1 = user_id) (review_proofs_null d).
Definition recorded (user_id : string) (d : db) : nat :=
  (size (proofs_of user_id d) + length (null_proofs_of user_id d))%nat.

(** Every cell holds a color of the palette. *)
Definition colors_in_palette (d : db) : Prop :=
  ∀ k row, canvas d !! k = Some row → 0 ≤ Canvas.color row < 16.

(** The last editor of a cell is a row of [users]. *)
Definition editors_exist (d : db) : Prop :=
  ∀ k row u, canvas d !! k = Some row → Canvas.last_user_id row = Some u →
             is_Some (users d !! u).

(** A cell without a last editor is as [init_db] wrote it. *)
Definition unpainted_blank (d : db) : Prop :=
  ∀ k row, canvas d !! k = Some row → Canvas.last_user_id row = None →
           row = Canvas.mk 0 None 0.

(** Every balance is covered by recorded proofs of its user, ten to a
    credit. *)
Definition balances_backed (d : db) : Prop :=
  ∀ user_id u, users d !! user_id = Some u →
               10 * Users.paint_balance u ≤ Z.of_nat (recorded user_id d).

(** The service after [bob] has handed in 10 fresh proofs instead: one
    credit. *)
Definition db_one_credit : db :=
  handle (POST_submit_reviews (ReviewSubmission.mk bob (cards 0 10))) db_registered.

(** A second registered user, for the examples. *)
Definition db_two_users : db :=
  handle (POST_user (UserRegister.mk "Eve") eve 150) db_funded.

(** * Properties *)

(** A pair is known once its first component is: used to name the
    database a call leaves behind without writing it out. *)
Lemma pair_fst_eq {A B : Type} (p : A * B) (a : A) : p.1 = a → p = (a, p.2).
Proof. intros <-. by destruct p. Qed.

(** ** Connections *)

Lemma close_commit conn : close (commit conn) = txn conn.
Proof. done. Qed.

Lemma close_get_db_connection d : close (get_db_connection d) = d.
Proof. done. Qed.

(** ** Statements on the [users] table *)

Lemma select_paint_balance_Some user_id t b :
  select_paint_balance user_id t = Some b ↔
  ∃ u, users t !! user_id = Some u ∧ Users.paint_balance u = b.
Proof.
  unfold select_paint_balance. destruct (users t !! user_id) as [u|]; simpl.
  - split; [intros [= <-]; eauto | intros (? & [= <-] & <-); done].
  - split; [done | intros (? & ? & _); done].
Qed.

Lemma select_paint_balance_None user_id t :
  select_paint_balance user_id t = None ↔ users t !! user_id = None.
Proof. unfold select_paint_balance. by destruct (users t !! user_id). Qed.

Lemma users_add_paint_balance amount user_id t who :
  users (add_paint_balance amount user_id t) !! who =
  if decide (user_id = who)
  then (λ u, Users.mk (Users.username u) (Users.paint_balance u + amount)
                      (Users.created_at u)) <$> users t !! who
  else users t !! who.
Proof.
  unfold add_paint_balance; simpl. rewrite lookup_alter.
  case_decide; by subst.
Qed.

Lemma select_add_paint_balance amount user_id t :
  select_paint_balance user_id (add_paint_balance amount user_id t) =
  (λ b, b + amount) <$> select_paint_balance user_id t.
Proof.
  unfold select_paint_balance. rewrite users_add_paint_balance, decide_True by done.
  by destruct (users t !! user_id).
Qed.

Lemma add_paint_balance_0 user_id t : add_paint_balance 0 user_id t = t.
Proof.
  destruct t as [c us ps ns]. unfold add_paint_balance; simpl. f_equal.
  apply map_eq; intros who. rewrite lookup_alter. case_decide; [subst|done].
  destruct (us !! who) as [[n b t]|]; simpl; [|done].
  by rewrite Z.add_0_r.
Qed.

(** ** [paint_pixel], case by case *)

Lemma paint_pixel_out_of_bounds pixel timestamp d :
  ¬ in_grid pixel → paint_pixel pixel timestamp d = (Raise OutOfBounds, d).
Proof.
  unfold in_grid, paint_pixel; intros Hg.
  repeat case_bool_decide; simpl; first [done | lia].
Qed.

Lemma paint_pixel_invalid_color pixel timestamp d :
  in_grid pixel → ¬ in_palette pixel →
  paint_pixel pixel timestamp d = (Raise InvalidColor, d).
Proof.
  unfold in_grid, in_palette, paint_pixel; intros Hg Hc.
  repeat case_bool_decide; simpl; first [done | lia].
Qed.

Lemma paint_pixel_not_found pixel timestamp d :
  in_grid pixel → in_palette pixel →
  users d !! PixelUpdate.user_id pixel = None →
  paint_pixel pixel timestamp d = (Raise NotFound_paint, d).
Proof.
  unfold in_grid, in_palette, paint_pixel; intros Hg Hc Hu.
  apply select_paint_balance_None in Hu. simpl. rewrite Hu.
  repeat case_bool_decide; simpl; first [done | lia].
Qed.

Lemma paint_pixel_insufficient pixel timestamp d u :
  in_grid pixel → in_palette pixel →
  users d !! PixelUpdate.user_id pixel = Some u →
  Users.paint_balance u < 1 →
  paint_pixel pixel timestamp d = (Raise InsufficientFunds, d).
Proof.
  unfold in_grid, in_palette, paint_pixel; intros Hg Hc Hu Hb.
  simpl. unfold select_paint_balance. rewrite Hu; simpl.
  repeat case_bool_decide; simpl; first [done | lia].
Qed.

Lemma paint_pixel_success pixel timestamp d u :
  in_grid pixel → in_palette pixel →
  users d !! PixelUpdate.user_id pixel = Some u →
  1 ≤ Users.paint_balance u →
  paint_pixel pixel timestamp d =
    (Ok (PaintResult.mk (PixelUpdate.x pixel) (PixelUpdate.y pixel)
           (PixelUpdate.color pixel)),
     painted pixel timestamp d).
Proof.
  unfold in_grid, in_palette, paint_pixel; intros Hg Hc Hu Hb.
  simpl. unfold select_paint_balance. rewrite Hu; simpl.
  repeat case_bool_decide; simpl; first [done | lia].
Qed.

(** Every call falls in exactly one of the five cases. *)
Lemma paint_pixel_cases pixel timestamp d :
  (¬ in_grid pixel ∧ paint_pixel pixel timestamp d = (Raise OutOfBounds, d))
  ∨ (in_grid pixel ∧ ¬ in_palette pixel
     ∧ paint_pixel pixel timestamp d = (Raise InvalidColor, d))
  ∨ (in_grid pixel ∧ in_palette pixel
     ∧ users d !! PixelUpdate.user_id pixel = None
     ∧ paint_pixel pixel timestamp d = (Raise NotFound_paint, d))
  ∨ (in_grid pixel ∧ in_palette pixel
     ∧ (∃ u, users d !! PixelUpdate.user_id pixel = Some u
             ∧ Users.paint_balance u < 1)
     ∧ paint_pixel pixel timestamp d = (Raise InsufficientFunds, d))
  ∨ (in_grid pixel ∧ in_palette pixel
     ∧ (∃ u, users d !! PixelUpdate.user_id pixel = Some u
             ∧ 1 ≤ Users.paint_balance u)
     ∧ paint_pixel pixel timestamp d =
         (Ok (PaintResult.mk (PixelUpdate.x pixel) (PixelUpdate.y pixel)
                (PixelUpdate.color pixel)),
          painted pixel timestamp d)).
Proof.
  destruct (decide (in_grid pixel)) as [Hg|Hg];
    [|left; eauto using paint_pixel_out_of_bounds].
  destruct (decide (in_palette pixel)) as [Hc|Hc];
    [|right; left; eauto using paint_pixel_invalid_color].
  destruct (users d !! PixelUpdate.user_id pixel) as [u|] eqn:Hu;
    [|right; right; left; eauto using paint_pixel_not_found].
  destruct (decide (Users.paint_balance u < 1)) as [Hb|Hb].
  - do 3 right; left. eauto 8 using paint_pixel_insufficient.
  - do 4 right. assert (1 ≤ Users.paint_balance u) by lia.
    eauto 8 using paint_pixel_success.
Qed.

Lemma paint_pixel_Raise pixel timestamp d e d' :
  paint_pixel pixel timestamp d = (Raise e, d') → d' = d.
Proof.
  destruct (paint_pixel_cases pixel timestamp d)
    as [(_ & ->)|[(_ & _ & ->)|[(_ & _ & _ & ->)|[(_ & _ & _ & ->)|(_ & _ & _ & ->)]]]];
    by intros [= ].
Qed.

Lemma paint_pixel_Ok pixel timestamp d r d' :
  paint_pixel pixel timestamp d = (Ok r, d') →
  in_grid pixel ∧ in_palette pixel
  ∧ (∃ u, users d !! PixelUpdate.user_id pixel = Some u ∧ 1 ≤ Users.paint_balance u)
  ∧ d' = painted pixel timestamp d.
Proof.
  destruct (paint_pixel_cases pixel timestamp d)
    as [(_ & ->)|[(_ & _ & ->)|[(_ & _ & _ & ->)|[(_ & _ & _ & ->)|(? & ? & ? & ->)]]]];
    intros [= ]; by subst.
Qed.

Lemma balance_Some user_id d b :
  balance user_id d = Some b ↔
  ∃ u, users d !! user_id = Some u ∧ Users.paint_balance u = b.
Proof.
  rewrite <- select_paint_balance_Some. unfold balance, get_balance.
  destruct (select_paint_balance user_id d); simpl; split; congruence.
Qed.

Lemma balance_select user_id d : balance user_id d = select_paint_balance user_id d.
Proof.
  unfold balance, get_balance. by destruct (select_paint_balance user_id d).
Qed.

Lemma balance_painted pixel timestamp d :
  balance (PixelUpdate.user_id pixel) (painted pixel timestamp d) =
  (λ b, b - 1) <$> balance (PixelUpdate.user_id pixel) d.
Proof.
  rewrite !balance_select. unfold painted. by rewrite select_add_paint_balance.
Qed.

(** ** Paint: conservation, atomicity, validation, frame *)



(** C3.  A paint refused with InsufficientFunds or NotFound leaves the
    whole database as it was: in particular the target cell (color, last
    editor, time of last change) and every user's balance. *)
Theorem paint_failure_atomic (pixel : PixelUpdate.t) (timestamp : REAL)
    (d d' : db) (e : exn) :
  paint_pixel pixel timestamp d = (Raise e, d') →
  e = InsufficientFunds ∨ e = NotFound_paint →
  d' = d
  ∧ canvas d' !! (PixelUpdate.x pixel, PixelUpdate.y pixel)
    = canvas d !! (PixelUpdate.x pixel, PixelUpdate.y pixel)
  ∧ ∀ user_id, balance user_id d' = balance user_id d.
Proof.
  intros ->%paint_pixel_Raise _. done.
Qed.

Lemma paint_failure_atomic_witness :
  (paint_pixel (PixelUpdate.mk 3 4 5 bob) 300 db_registered).2 = db_registered
  ∧ (paint_pixel (PixelUpdate.mk 3 4 5 eve) 300 db_funded).2 = db_funded.
Proof.
  split.
  - refine (proj1 (paint_failure_atomic (PixelUpdate.mk 3 4 5 bob) 300
                     db_registered
                     (paint_pixel (PixelUpdate.mk 3 4 5 bob) 300 db_registered).2
                     InsufficientFunds _ _)).
    + apply pair_fst_eq. vm_compute; reflexivity.
    + left; reflexivity.
  - refine (proj1 (paint_failure_atomic (PixelUpdate.mk 3 4 5 eve) 300
                     db_funded
                     (paint_pixel (PixelUpdate.mk 3 4 5 eve) 300 db_funded).2
                     NotFound_paint _ _)).
    + apply pair_fst_eq. vm_compute; reflexivity.
    + right; reflexivity.
Defined.

(** C8, as the claim puts it, fails: with x = 32 and color = 16 the color
    is outside the palette, yet the call is refused with OutOfBounds, the
    check that comes first, and not with InvalidColor. *)
Lemma paint_invalid_color_not_exact :
  ¬ in_palette (PixelUpdate.mk 32 0 16 bob)
  ∧ (paint_pixel (PixelUpdate.mk 32 0 16 bob) 300 db_funded).1
    = Raise OutOfBounds
  ∧ OutOfBounds ≠ InvalidColor.
Proof.
  split; [unfold in_palette; simpl; lia|]. split; [vm_compute; reflexivity|discriminate].
Qed.

(** C8, amended.  A paint is refused with OutOfBounds exactly when x or y
    is outside [0, 32), and with InvalidColor exactly when x and y are inside
    and the color is outside [0, 16); Paint(0, 0, 15, u) succeeds for an
    existing user with a balance of at least 1. *)
Theorem paint_validation (pixel : PixelUpdate.t) (timestamp : REAL) (d : db) :
  ((paint_pixel pixel timestamp d).1 = Raise OutOfBounds ↔ ¬ in_grid pixel)
  ∧ ((paint_pixel pixel timestamp d).1 = Raise InvalidColor
     ↔ in_grid pixel ∧ ¬ in_palette pixel)
  ∧ (∀ b, PixelUpdate.x pixel = 0 → PixelUpdate.y pixel = 0 →
          PixelUpdate.color pixel = 15 →
          balance (PixelUpdate.user_id pixel) d = Some b → 1 ≤ b →
          (paint_pixel pixel timestamp d).1 = Ok (PaintResult.mk 0 0 15)).
Proof.
  split; [|split].
  - destruct (paint_pixel_cases pixel timestamp d)
      as [(? & ->)|[(? & ? & ->)|[(? & ? & ? & ->)|[(? & ? & ? & ->)|(? & ? & ? & ->)]]]];
      simpl; split; first [done | by intros [= ]].
  - destruct (paint_pixel_cases pixel timestamp d)
      as [(? & ->)|[(? & ? & ->)|[(? & ? & ? & ->)|[(? & ? & ? & ->)|(? & ? & ? & ->)]]]];
      simpl; split; first [done | by intros [= ] | by intros [??]].
  - intros b Hx Hy Hc (u & Hu & <-)%balance_Some Hb.
    erewrite paint_pixel_success; eauto; simpl.
    + by rewrite Hx, Hy, Hc.
    + unfold in_grid; lia.
    + unfold in_palette; lia.
Qed.

Lemma paint_validation_witness :
  (paint_pixel (PixelUpdate.mk 0 0 15 bob) 300 db_funded).1
  = Ok (PaintResult.mk 0 0 15).
Proof.
  refine (proj2 (proj2 (paint_validation (PixelUpdate.mk 0 0 15 bob) 300
                          db_funded)) 2 _ _ _ _ _).
  - reflexivity.
  - reflexivity.
  - reflexivity.
  - vm_compute; reflexivity.
  - lia.
Defined.

(** C9.  A successful paint changes the painted cell and the painter's
    balance and nothing else: every other cell, every other user's row, the
    painter's key, name and creation time, and the proof store are as
    before. *)
Theorem paint_frame (pixel : PixelUpdate.t) (timestamp : REAL) (d d' : db)
    (r : PaintResult.t) :
  paint_pixel pixel timestamp d = (Ok r, d') →
  (∀ x y, (x, y) ≠ (PixelUpdate.x pixel, PixelUpdate.y pixel) →
          canvas d' !! (x, y) = canvas d !! (x, y))
  ∧ (∀ user_id, user_id ≠ PixelUpdate.user_id pixel →
                users d' !! user_id = users d !! user_id)
  ∧ (∃ u, users d !! PixelUpdate.user_id pixel = Some u
          ∧ users d' !! PixelUpdate.user_id pixel
            = Some (Users.mk (Users.username u) (Users.paint_balance u - 1)
                             (Users.created_at u)))
  ∧ review_proofs d' = review_proofs d
  ∧ review_proofs_null d' = review_proofs_null d.
Proof.
  intros (_ & _ & (u & Hu & _) & ->)%paint_pixel_Ok.
  unfold painted. repeat split.
  - intros x y Hne. simpl. by rewrite lookup_alter_ne.
  - intros user_id Hne. by rewrite users_add_paint_balance, decide_False.
  - exists u. split; [done|].
    rewrite users_add_paint_balance, decide_True by done. simpl.
    by rewrite Hu.
Qed.

Lemma paint_frame_witness :
  canvas (paint_pixel (PixelUpdate.mk 3 4 5 bob) 300 db_funded).2 !! (4, 3)
  = canvas db_funded !! (4, 3).
Proof.
  refine (proj1 (paint_frame (PixelUpdate.mk 3 4 5 bob) 300 db_funded
                   (paint_pixel (PixelUpdate.mk 3 4 5 bob) 300 db_funded).2
                   (PaintResult.mk 3 4 5) _) 4 3 _).
  - apply pair_fst_eq. vm_compute; reflexivity.
  - simpl. intros [= ].
Defined.

(** ** Sets of keys *)

Lemma db_eq (d d' : db) :
  canvas d = canvas d' → users d = users d' →
  review_proofs d = review_proofs d' →
  review_proofs_null d = review_proofs_null d' →
  d = d'.
Proof. destruct d, d'; simpl; by intros -> -> -> ->. Qed.

Lemma keys_none (R : gset (string * Z * Z)) : ∅ ∖ R = ∅ ∧ ∅ ∪ R = R.
Proof.
  split; apply set_eq; intros j.
  - rewrite elem_of_difference, elem_of_empty. tauto.
  - rewrite elem_of_union, elem_of_empty. tauto.
Qed.

Lemma keys_known (k : string * Z * Z) (K R : gset (string * Z * Z)) :
  k ∈ R → ({[k]} ∪ K) ∖ R = K ∖ R ∧ {[k]} ∪ K ∪ R = K ∪ R.
Proof.
  intros Hk. split; apply set_eq; intros j.
  - rewrite !elem_of_difference, elem_of_union, elem_of_singleton.
    split; [|tauto]. intros [[->|?] ?]; tauto.
  - rewrite !elem_of_union, elem_of_singleton.
    split; [|tauto]. intros [[->|?]|?]; tauto.
Qed.

Lemma keys_new (k : string * Z * Z) (K R : gset (string * Z * Z)) :
  k ∉ R →
  size (({[k]} ∪ K) ∖ R) = S (size (K ∖ ({[k]} ∪ R)))
  ∧ K ∪ ({[k]} ∪ R) = {[k]} ∪ K ∪ R.
Proof.
  intros Hk. split.
  - assert (({[k]} ∪ K) ∖ R = {[k]} ∪ K ∖ ({[k]} ∪ R)) as ->.
    { apply set_eq; intros j.
      rewrite !elem_of_union, !elem_of_difference, !elem_of_union, elem_of_singleton.
      destruct (decide (j = k)) as [->|]; tauto. }
    rewrite size_union, size_singleton; [done|].
    intros j ->%elem_of_singleton.
    rewrite elem_of_difference, elem_of_union, elem_of_singleton. tauto.
  - apply set_eq; intros j. rewrite !elem_of_union, elem_of_singleton. tauto.
Qed.

Lemma proof_key_inj user_id p q k :
  proof_key user_id p = Some k → proof_key user_id q = Some k → p = q.
Proof.
  destruct p as [c1 [v1|]], q as [c2 [v2|]]; unfold proof_key; simpl; try done.
  by intros [= <-] [= -> ->].
Qed.

Lemma proof_key_user user_id p k : proof_key user_id p = Some k → k.1.1 = user_id.
Proof. destruct p as [c [v|]]; unfold proof_key; simpl; [by intros [= <-]|done]. Qed.

Lemma proof_keys_elem_of user_id proofs k :
  k ∈ proof_keys user_id proofs ↔ ∃ p, p ∈ proofs ∧ proof_key user_id p = Some k.
Proof. unfold proof_keys. by rewrite elem_of_list_to_set, list_elem_of_omap. Qed.

Lemma proof_keys_user user_id proofs k : k ∈ proof_keys user_id proofs → k.1.1 = user_id.
Proof. intros (p & _ & Hk)%proof_keys_elem_of. by eapply proof_key_user. Qed.

Lemma null_rows_user user_id proofs r : r ∈ null_rows user_id proofs → r.1 = user_id.
Proof.
  unfold null_rows. intros (p & _ & Hr)%list_elem_of_omap.
  destruct p as [c [v|]]; unfold null_row in Hr; simpl in Hr; [done|].
  by injection Hr as <-.
Qed.

Lemma numbers_null_rows user_id proofs : numbers proofs → null_rows user_id proofs = [].
Proof.
  unfold numbers, null_rows. induction 1 as [|[c [v|]] proofs Hp _ IH]; simpl; done.
Qed.

(** ** The loop over the submitted proofs *)

Lemma bind_int_Ok n : - 2 ^ 63 ≤ n < 2 ^ 63 → bind_int n = Ok n.
Proof. intros Hn. unfold bind_int. by rewrite bool_decide_eq_true_2. Qed.

Lemma bind_int_Raise n : ¬ (- 2 ^ 63 ≤ n < 2 ^ 63) → bind_int n = Raise OverflowError.
Proof. intros Hn. unfold bind_int. by rewrite bool_decide_eq_false_2. Qed.

(** One turn, case by case. *)
Lemma record_proof_cases user_id conn n proof :
  (¬ (- 2 ^ 63 ≤ ReviewProof.card_id proof < 2 ^ 63)
   ∧ record_proof user_id conn n proof = (Raise OverflowError, conn))
  ∨ (- 2 ^ 63 ≤ ReviewProof.card_id proof < 2 ^ 63
     ∧ ((∃ k, proof_key user_id proof = Some k ∧ k ∈ review_proofs (txn conn)
              ∧ record_proof user_id conn n proof = (Ok n, conn))
        ∨ (∃ k, proof_key user_id proof = Some k
                ∧ (k ∉ review_proofs (txn conn))
                ∧ record_proof user_id conn n proof
                  = (Ok (n + 1),
                     mkconn (file conn)
                       (mkdb (canvas (txn conn)) (users (txn conn))
                          ({[k]} ∪ review_proofs (txn conn))
                          (review_proofs_null (txn conn)))))
        ∨ (∃ r, null_row user_id proof = Some r
                ∧ proof_key user_id proof = None
                ∧ record_proof user_id conn n proof
                  = (Ok (n + 1),
                     mkconn (file conn)
                       (mkdb (canvas (txn conn)) (users (txn conn))
                          (review_proofs (txn conn))
                          (review_proofs_null (txn conn) ++ [r])))))).
Proof.
  unfold record_proof.
  destruct (decide (- 2 ^ 63 ≤ ReviewProof.card_id proof < 2 ^ 63)) as [Hint|Hint].
  2:{ left. by rewrite bind_int_Raise. }
  right. split; [done|]. rewrite bind_int_Ok by done.
  destruct proof as [c [v|]]; unfold proof_key, null_row; simpl.
  - case_bool_decide; [left|right; left]; eauto.
  - right; right. eauto.
Qed.

(** The loop never writes to the file. *)
Lemma file_record_proofs user_id proofs conn n :
  file (record_proofs user_id proofs conn n).2 = file conn.
Proof.
  revert conn n. induction proofs as [|proof proofs IH]; intros conn n; [done|].
  cbn [record_proofs].
  destruct (record_proof_cases user_id conn n proof)
    as [[_ ->]|[_ [(k & _ & _ & ->)|[(k & _ & _ & ->)|(r & _ & _ & ->)]]]];
    [done|by rewrite IH..].
Qed.

(** A card identifier that does not fit ends the loop with OverflowError. *)
Lemma record_proofs_overflow user_id proofs conn n :
  ¬ sqlite_ints proofs → (record_proofs user_id proofs conn n).1 = Raise OverflowError.
Proof.
  unfold sqlite_ints. revert conn n.
  induction proofs as [|proof proofs IH]; intros conn n Hints.
  { destruct Hints. constructor. }
  cbn [record_proofs].
  destruct (record_proof_cases user_id conn n proof)
    as [[_ ->]|[Hint [(k & _ & _ & ->)|[(k & _ & _ & ->)|(r & _ & _ & ->)]]]];
    [done|apply IH; intros Hrest; apply Hints; by constructor..].
Qed.

(** When all card identifiers fit, the loop succeeds: it counts the keys
    that were not recorded, each once, and every proof without a key; it
    records all of them; and it writes to nothing else. *)
Lemma record_proofs_closed user_id proofs conn n :
  sqlite_ints proofs →
  record_proofs user_id proofs conn n =
    (Ok (n + Z.of_nat (size (proof_keys user_id proofs ∖ review_proofs (txn conn))
                       + length (null_rows user_id proofs))),
     mkconn (file conn)
       (mkdb (canvas (txn conn)) (users (txn conn))
          (proof_keys user_id proofs ∪ review_proofs (txn conn))
          (review_proofs_null (txn conn) ++ null_rows user_id proofs))).
Proof.
  unfold sqlite_ints, proof_keys, null_rows. intros Hints. revert conn n.
  induction Hints as [|proof proofs Hint _ IH]; intros conn n.
  - destruct conn as [f [c u r ns]]. simpl. rewrite app_nil_r.
    destruct (keys_none r) as [-> ->]. rewrite size_empty. do 2 f_equal. lia.
  - cbn [record_proofs omap list_omap].
    destruct (record_proof_cases user_id conn n proof)
      as [[? _]|[_ [(k & Hk & Hin & ->)|[(k & Hk & Hin & ->)|(r & Hr & Hk & ->)]]]];
      [done|rewrite IH; cbn [txn file canvas users review_proofs review_proofs_null]..].
    + rewrite Hk. destruct (null_row user_id proof) eqn:Hr.
      { destruct proof as [c [v|]]; unfold proof_key, null_row in *; simpl in *; done. }
      rewrite list_to_set_cons.
      destruct (keys_known k (list_to_set (omap (proof_key user_id) proofs)) _ Hin)
        as [-> ->].
      done.
    + rewrite Hk. destruct (null_row user_id proof) eqn:Hr.
      { destruct proof as [c [v|]]; unfold proof_key, null_row in *; simpl in *; done. }
      rewrite list_to_set_cons.
      destruct (keys_new k (list_to_set (omap (proof_key user_id) proofs)) _ Hin)
        as [-> ->].
      do 2 f_equal. lia.
    + rewrite Hk, Hr. rewrite <- app_assoc. simpl. do 2 f_equal. lia.
Qed.

(** Distinct proofs of which none is recorded are all counted. *)
Lemma record_proofs_new user_id proofs conn n :
  sqlite_ints proofs →
  distinct_new user_id proofs (txn conn) →
  (record_proofs user_id proofs conn n).1 = Ok (n + Z.of_nat (length proofs)).
Proof.
  unfold sqlite_ints. intros Hints. revert conn n.
  induction Hints as [|proof proofs Hint _ IH]; intros conn n [Hnd Hnew].
  { simpl. f_equal. lia. }
  apply NoDup_cons in Hnd as [Hnotin Hnd].
  apply Forall_cons in Hnew as [Hproof Hnew].
  cbn [record_proofs]. unfold unrecorded in Hproof.
  destruct (record_proof_cases user_id conn n proof)
    as [[? _]|[_ [(k & Hk & Hin & ->)|[(k & Hk & Hin & ->)|(r & Hr & Hk & ->)]]]];
    [done|by rewrite Hk in Hproof|rewrite IH..].
  - f_equal. simpl length. lia.
  - split; [done|]. simpl. apply Forall_forall. intros q Hq.
    rewrite Forall_forall in Hnew. specialize (Hnew q Hq). unfold unrecorded in *.
    simpl. destruct (proof_key user_id q) as [kq|] eqn:Hkq; [|done].
    rewrite elem_of_union, elem_of_singleton. intros [->|?]; [|done].
    apply Hnotin. by rewrite (proof_key_inj user_id proof q k).
  - f_equal. simpl length. lia.
  - split; [done|]. simpl. apply Forall_forall. intros q Hq.
    rewrite Forall_forall in Hnew. specialize (Hnew q Hq). unfold unrecorded in *.
    simpl. done.
Qed.

(** The count grows by at most one for each proof. *)
Lemma record_proofs_bounds user_id proofs conn n n' conn' :
  record_proofs user_id proofs conn n = (Ok n', conn') →
  n ≤ n' ≤ n + Z.of_nat (length proofs).
Proof.
  revert conn n. induction proofs as [|proof proofs IH]; intros conn n.
  { simpl. intros [= <- _]. lia. }
  cbn [record_proofs].
  destruct (record_proof_cases user_id conn n proof)
    as [[_ ->]|[_ [(k & _ & _ & ->)|[(k & _ & _ & ->)|(r & _ & _ & ->)]]]];
    [done|intros ?%IH; simpl length; lia..].
Qed.

(** ** [submit_reviews], case by case *)

Lemma submit_reviews_conn_unknown submission conn :
  users (txn conn) !! ReviewSubmission.user_id submission = None →
  submit_reviews_conn submission conn = (Raise NotFound, conn).
Proof.
  intros Hu%select_paint_balance_None. unfold submit_reviews_conn. by rewrite Hu.
Qed.

Lemma submit_reviews_unknown submission d :
  users d !! ReviewSubmission.user_id submission = None →
  submit_reviews submission d = (Raise NotFound, d).
Proof. intros Hu. unfold submit_reviews. by rewrite submit_reviews_conn_unknown. Qed.

(** For an existing user and a card identifier that does not fit, the call
    ends in OverflowError before the commit. *)
Lemma submit_reviews_overflow submission d u :
  users d !! ReviewSubmission.user_id submission = Some u →
  ¬ sqlite_ints (ReviewSubmission.proofs submission) →
  submit_reviews submission d = (Raise OverflowError, d).
Proof.
  intros Hu Hints. unfold submit_reviews, submit_reviews_conn.
  assert (select_paint_balance (ReviewSubmission.user_id submission) d
          = Some (Users.paint_balance u)) as Hs
    by (apply select_paint_balance_Some; eauto).
  cbn [get_db_connection txn]. rewrite Hs.
  pose proof (record_proofs_overflow (ReviewSubmission.user_id submission)
                (ReviewSubmission.proofs submission) (mkconn d d) 0 Hints) as Hr.
  pose proof (file_record_proofs (ReviewSubmission.user_id submission)
                (ReviewSubmission.proofs submission) (mkconn d d) 0) as Hf.
  destruct (record_proofs _ _ _ _) as [r conn]. simpl in Hr, Hf. subst r.
  simpl. unfold close. by rewrite Hf.
Qed.

(** For an existing user and card identifiers that fit, the call succeeds,
    in closed form: the count of the loop, a tenth of it as the award, the
    award added to the balance (adding 0 is what skipping the UPDATE amounts
    to), and the proofs recorded. *)
Lemma submit_reviews_closed submission d u :
  users d !! ReviewSubmission.user_id submission = Some u →
  sqlite_ints (ReviewSubmission.proofs submission) →
  let keys := proof_keys (ReviewSubmission.user_id submission)
                (ReviewSubmission.proofs submission) in
  let nulls := null_rows (ReviewSubmission.user_id submission)
                 (ReviewSubmission.proofs submission) in
  let n := Z.of_nat (size (keys ∖ review_proofs d) + length nulls) in
  submit_reviews submission d =
    (Ok (SubmitResult.mk n (n `div` 10)),
     add_paint_balance (n `div` 10) (ReviewSubmission.user_id submission)
       (mkdb (canvas d) (users d) (keys ∪ review_proofs d)
          (review_proofs_null d ++ nulls))).
Proof.
  intros Hu Hints. unfold submit_reviews, submit_reviews_conn.
  assert (select_paint_balance (ReviewSubmission.user_id submission) d
          = Some (Users.paint_balance u)) as Hs
    by (apply select_paint_balance_Some; eauto).
  cbn [get_db_connection txn]. rewrite Hs.
  rewrite record_proofs_closed by done. cbn [txn file fst snd]. rewrite Z.add_0_l.
  set (n := Z.of_nat _). case_bool_decide as Ha; [done|].
  assert (n `div` 10 = 0) as -> by (pose proof (Z.div_pos n 10); lia).
  cbn [commit close file txn fst snd]. by rewrite add_paint_balance_0.
Qed.

Lemma balance_add_paint_balance amount user_id t :
  balance user_id (add_paint_balance amount user_id t) =
  (λ b, b + amount) <$> balance user_id t.
Proof. rewrite !balance_select. apply select_add_paint_balance. Qed.

Lemma balance_users_eq user_id d d' :
  users d' = users d → balance user_id d' = balance user_id d.
Proof.
  intros Hu. rewrite !balance_select. unfold select_paint_balance. by rewrite Hu.
Qed.

(** ** Submitting proofs *)

(** C10.  For an existing user, an empty proof list is accepted with
    new_count = 0 and awarded = 0, and the database is left as it was. *)
Theorem submit_no_proofs (user_id : string) (d : db) :
  is_Some (users d !! user_id) →
  submit_reviews (ReviewSubmission.mk user_id []) d = (Ok (SubmitResult.mk 0 0), d).
Proof.
  intros [u Hu]. unfold submit_reviews, submit_reviews_conn.
  assert (select_paint_balance user_id d = Some (Users.paint_balance u)) as Hs
    by (apply select_paint_balance_Some; eauto).
  simpl. by rewrite Hs.
Qed.

Lemma submit_no_proofs_witness :
  submit_reviews (ReviewSubmission.mk bob []) db_funded
  = (Ok (SubmitResult.mk 0 0), db_funded).
Proof.
  apply (submit_no_proofs bob db_funded).
  vm_compute. eexists; reflexivity.
Defined.

(** C6.  A submission for a user identifier that is no row of [users] is
    refused with NotFound; the connection is then still as it was opened, so
    no proof has been looked up or recorded, and the database is left as it
    was: same proofs, same balances. *)
Theorem submit_unknown_user (submission : ReviewSubmission.t) (d : db) :
  users d !! ReviewSubmission.user_id submission = None →
  submit_reviews submission d = (Raise NotFound, d)
  ∧ submit_reviews_conn submission (get_db_connection d)
    = (Raise NotFound, get_db_connection d)
  ∧ review_proofs (submit_reviews submission d).2 = review_proofs d
  ∧ review_proofs_null (submit_reviews submission d).2 = review_proofs_null d
  ∧ ∀ user_id, balance user_id (submit_reviews submission d).2 = balance user_id d.
Proof.
  intros Hu. unfold submit_reviews.
  rewrite submit_reviews_conn_unknown by done. done.
Qed.

Lemma submit_unknown_user_witness :
  submit_reviews (ReviewSubmission.mk eve (cards 0 25)) db_registered
  = (Raise NotFound, db_registered).
Proof.
  refine (proj1 (submit_unknown_user (ReviewSubmission.mk eve (cards 0 25))
                   db_registered _)).
  vm_compute; reflexivity.
Defined.

(** C1, on the code.  Ten proofs whose timestamp is NaN are stored with a
    NULL timestamp, which no later SELECT finds: handed in a second time they
    are counted again, new_count = 10 and awarded = 1 on both calls, and the
    balance after both is 2 where the first call credited 1. *)
Theorem submit_nan_counted_twice :
  let submission := ReviewSubmission.mk bob (cards_nan 0 10) in
  let first := submit_reviews submission db_registered in
  let second := submit_reviews submission first.2 in
  balance bob db_registered = Some 0
  ∧ first.1 = Ok (SubmitResult.mk 10 1)
  ∧ balance bob first.2 = Some 1
  ∧ second.1 = Ok (SubmitResult.mk 10 1)
  ∧ balance bob second.2 = Some 2.
Proof. vm_compute. auto. Qed.

Lemma submit_reviews_new user_id batch d b :
  balance user_id d = Some b →
  sqlite_ints batch →
  distinct_new user_id batch d →
  ∃ d1,
    submit_reviews (ReviewSubmission.mk user_id batch) d
    = (Ok (SubmitResult.mk (Z.of_nat (length batch))
                           (Z.of_nat (length batch) `div` 10)), d1)
    ∧ balance user_id d1 = Some (b + Z.of_nat (length batch) `div` 10)
    ∧ review_proofs d1 = proof_keys user_id batch ∪ review_proofs d.
Proof.
  intros Hb Hints Hnew. pose proof Hb as (u & Hu & _)%balance_Some.
  pose proof (submit_reviews_closed (ReviewSubmission.mk user_id batch) d u Hu Hints)
    as Hs. cbn [ReviewSubmission.user_id ReviewSubmission.proofs] in Hs.
  pose proof (record_proofs_new user_id batch (get_db_connection d) 0 Hints Hnew) as Hn.
  rewrite record_proofs_closed in Hn by done.
  cbn [fst get_db_connection txn] in Hn. injection Hn as Hn.
  rewrite Z.add_0_l in Hn. rewrite Hn in Hs.
  eexists. split; [exact Hs|]. split; [|done].
  rewrite balance_add_paint_balance.
  rewrite (balance_users_eq user_id d) by done. by rewrite Hb.
Qed.

Lemma distinct_new_app user_id batch1 batch2 d d1 :
  distinct_new user_id (batch1 ++ batch2) d →
  review_proofs d1 = proof_keys user_id batch1 ∪ review_proofs d →
  distinct_new user_id batch1 d ∧ distinct_new user_id batch2 d1.
Proof.
  intros [(Hnd1 & Hdisj & Hnd2)%NoDup_app [Hf1 Hf2]%Forall_app] Hps.
  split; [done|]. split; [done|].
  apply Forall_forall. intros q Hq. unfold unrecorded.
  rewrite Forall_forall in Hf2. specialize (Hf2 q Hq). unfold unrecorded in Hf2.
  destruct (proof_key user_id q) as [k|] eqn:Hk; [|done].
  rewrite Hps, elem_of_union. intros [Hin|Hin]; [|done].
  apply proof_keys_elem_of in Hin as (p & Hp & Hkp).
  rewrite (proof_key_inj user_id p q k Hkp Hk) in Hp. by apply (Hdisj q).
Qed.

(** C4.  A successful submission awards new_count // 10.  Two successive
    batches of distinct proofs that are all new, with card identifiers that
    fit an INTEGER, are both accepted, each counted in full and each rounded
    down on its own, nothing being carried over: 25 in one call give 2; 10
    then 15 give 1 and 1; 5 then 20 give 0 and 2; 9 then 16 give 0 and 1. *)
Theorem award_arithmetic :
  (∀ submission d r d',
     submit_reviews submission d = (Ok r, d') →
     SubmitResult.paint_awarded r = SubmitResult.new_proofs r `div` 10)
  ∧ (∀ user_id batch1 batch2 d b,
       balance user_id d = Some b →
       sqlite_ints (batch1 ++ batch2) →
       distinct_new user_id (batch1 ++ batch2) d →
       ∃ r1 d1 r2 d2,
         submit_reviews (ReviewSubmission.mk user_id batch1) d = (Ok r1, d1)
         ∧ submit_reviews (ReviewSubmission.mk user_id batch2) d1 = (Ok r2, d2)
         ∧ SubmitResult.new_proofs r1 = Z.of_nat (length batch1)
         ∧ SubmitResult.new_proofs r2 = Z.of_nat (length batch2)
         ∧ balance user_id d2
           = Some (b + SubmitResult.paint_awarded r1 + SubmitResult.paint_awarded r2)
         ∧ (length batch1 = 25%nat → SubmitResult.paint_awarded r1 = 2)
         ∧ (length batch1 = 10%nat → length batch2 = 15%nat →
            SubmitResult.paint_awarded r1 = 1 ∧ SubmitResult.paint_awarded r2 = 1)
         ∧ (length batch1 = 5%nat → length batch2 = 20%nat →
            SubmitResult.paint_awarded r1 = 0 ∧ SubmitResult.paint_awarded r2 = 2)
         ∧ (length batch1 = 9%nat → length batch2 = 16%nat →
            SubmitResult.paint_awarded r1 = 0 ∧ SubmitResult.paint_awarded r2 = 1)).
Proof.
  split.
  - intros submission d r d' Hs.
    destruct (users d !! ReviewSubmission.user_id submission) as [u|] eqn:Hu.
    2:{ by rewrite submit_reviews_unknown in Hs. }
    destruct (decide (sqlite_ints (ReviewSubmission.proofs submission))) as [Hints|Hints].
    2:{ by rewrite (submit_reviews_overflow submission d u) in Hs. }
    rewrite (submit_reviews_closed submission d u Hu Hints) in Hs.
    by injection Hs as <- _.
  - intros user_id batch1 batch2 d b Hb [Hints1 Hints2]%Forall_app Hnew.
    destruct (submit_reviews_new user_id batch1 d b Hb Hints1) as (d1 & Hs1 & Hb1 & Hps1).
    { destruct Hnew as [(? & _ & _)%NoDup_app [? _]%Forall_app]. by split. }
    destruct (distinct_new_app user_id batch1 batch2 d d1 Hnew Hps1) as [_ Hnew2].
    destruct (submit_reviews_new user_id batch2 d1 _ Hb1 Hints2 Hnew2)
      as (d2 & Hs2 & Hb2 & _).
    eexists _, d1, _, d2. split; [exact Hs1|]. split; [exact Hs2|]. simpl.
    split; [done|]. split; [done|]. split; [done|].
    repeat split; intros; by repeat match goal with H : length _ = _ |- _ => rewrite H end.
Qed.

Lemma award_arithmetic_witness :
  ∃ r1 d1 r2 d2,
    submit_reviews (ReviewSubmission.mk bob (cards 0 9)) db_registered = (Ok r1, d1)
    ∧ submit_reviews (ReviewSubmission.mk bob (cards 9 16)) d1 = (Ok r2, d2)
    ∧ SubmitResult.new_proofs r1 = 9
    ∧ SubmitResult.new_proofs r2 = 16
    ∧ SubmitResult.paint_awarded r1 = 0
    ∧ SubmitResult.paint_awarded r2 = 1
    ∧ balance bob d2 = Some 1.
Proof.
  destruct (proj2 award_arithmetic bob (cards 0 9) (cards 9 16) db_registered 0)
    as (r1 & d1 & r2 & d2 & H1 & H2 & Hn1 & Hn2 & Hb & _ & _ & _ & H916).
  - vm_compute; reflexivity.
  - apply (bool_decide_unpack _). vm_compute. exact I.
  - apply (bool_decide_unpack _). vm_compute. exact I.
  - destruct H916 as [Ha1 Ha2]; [reflexivity | reflexivity |].
    exists r1, d1, r2, d2. rewrite Ha1, Ha2 in Hb. auto 10.
Defined.
(** ** What each request leaves behind *)

Lemma register_user_db user new_id timestamp d :
  (register_user user new_id timestamp d).2 = d
  ∨ (users d !! new_id = None
     ∧ (register_user user new_id timestamp d).2
       = mkdb (canvas d)
              (<[new_id := Users.mk (UserRegister.username user) 0 timestamp]> (users d))
              (review_proofs d) (review_proofs_null d)).
Proof.
  unfold register_user, insert_user. simpl.
  destruct (users d !! new_id); [by left | by right].
Qed.

Lemma submit_reviews_db submission d :
  (submit_reviews submission d).2 = d
  ∨ ∃ amount t,
      0 ≤ amount ∧ canvas t = canvas d ∧ users t = users d
      ∧ (submit_reviews submission d).2
        = add_paint_balance amount (ReviewSubmission.user_id submission) t.
Proof.
  destruct (users d !! ReviewSubmission.user_id submission) as [u|] eqn:Hu.
  2:{ left. by rewrite submit_reviews_unknown. }
  destruct (decide (sqlite_ints (ReviewSubmission.proofs submission))) as [Hints|Hints].
  2:{ left. by rewrite (submit_reviews_overflow submission d u). }
  right. rewrite (submit_reviews_closed submission d u Hu Hints). cbn [snd].
  eexists _, _. split; [|split; [|split; [|reflexivity]]]; [|done..].
  apply Z.div_pos; lia.
Qed.

Lemma paint_pixel_db pixel timestamp d :
  (paint_pixel pixel timestamp d).2 = d
  ∨ ((∃ u, users d !! PixelUpdate.user_id pixel = Some u ∧ 1 ≤ Users.paint_balance u)
     ∧ (paint_pixel pixel timestamp d).2 = painted pixel timestamp d).
Proof.
  destruct (paint_pixel_cases pixel timestamp d)
    as [(_ & ->)|[(_ & _ & ->)|[(_ & _ & _ & ->)|[(_ & _ & _ & ->)|(_ & _ & ? & ->)]]]];
    auto.
Qed.

(** ** [init_db] on the fresh file *)

Lemma init_row_spec (x : Z) (r : Canvas.row) (ys : list Z) (conn : connection) :
  let conn' := foldl (λ conn y, execute (insert_canvas x y r) conn) conn ys in
  file conn' = file conn
  ∧ users (txn conn') = users (txn conn)
  ∧ review_proofs (txn conn') = review_proofs (txn conn)
  ∧ review_proofs_null (txn conn') = review_proofs_null (txn conn)
  ∧ ∀ x' y', canvas (txn conn') !! (x', y') =
             if decide (x' = x ∧ y' ∈ ys) then Some r else canvas (txn conn) !! (x', y').
Proof.
  revert conn. induction ys as [|y ys IH]; intros conn; cbn [foldl].
  - repeat split. intros x' y'. rewrite decide_False; [done|].
    intros [_ ?%elem_of_nil]. done.
  - destruct (IH (execute (insert_canvas x y r) conn)) as (Hf & Hu & Hp & Hnull & Hc).
    repeat split; try done. intros x' y'. rewrite Hc. simpl.
    destruct (decide (x' = x ∧ y' ∈ ys)) as [[-> Hin]|Hn].
    + rewrite decide_True; [done|]. split; [done|]. by apply elem_of_cons; right.
    + destruct (decide ((x, y) = (x', y'))) as [[= <- <-]|Hne].
      * rewrite lookup_insert_eq, decide_True; [done|].
        split; [done|]. by apply elem_of_cons; left.
      * rewrite lookup_insert_ne by done. rewrite decide_False; [done|].
        intros [-> [->|Hin]%elem_of_cons]; [by apply Hne | by apply Hn].
Qed.

Lemma init_grid_spec (r : Canvas.row) (xs ys : list Z) (conn : connection) :
  let conn' :=
    foldl (λ conn x, foldl (λ conn y, execute (insert_canvas x y r) conn) conn ys)
          conn xs in
  file conn' = file conn
  ∧ users (txn conn') = users (txn conn)
  ∧ review_proofs (txn conn') = review_proofs (txn conn)
  ∧ review_proofs_null (txn conn') = review_proofs_null (txn conn)
  ∧ ∀ x' y', canvas (txn conn') !! (x', y') =
             if decide (x' ∈ xs ∧ y' ∈ ys) then Some r else canvas (txn conn) !! (x', y').
Proof.
  revert conn. induction xs as [|x xs IH]; intros conn; cbn [foldl].
  - by repeat split.
  - destruct (init_row_spec x r ys conn) as (Hf1 & Hu1 & Hp1 & Hnull1 & Hc1).
    destruct (IH (foldl (λ conn y, execute (insert_canvas x y r) conn) conn ys))
      as (Hf & Hu & Hp & Hnull & Hc).
    repeat split; try congruence. intros x' y'. rewrite Hc, Hc1.
    destruct (decide (x' ∈ xs ∧ y' ∈ ys)) as [[Hx Hy]|Hn].
    + rewrite decide_True; [done|]. split; [|done]. by apply elem_of_cons; right.
    + destruct (decide (x' = x ∧ y' ∈ ys)) as [[-> Hy]|Hn1].
      * rewrite decide_True; [done|]. split; [|done]. by apply elem_of_cons; left.
      * rewrite decide_False; [done|].
        intros [[->|Hx]%elem_of_cons Hy]; [by apply Hn1 | by apply Hn].
Qed.

Lemma init_db_empty :
  users (init_db empty_db) = ∅
  ∧ review_proofs (init_db empty_db) = ∅
  ∧ ∀ x y, canvas (init_db empty_db) !! (x, y) =
           if decide (0 ≤ x < 32 ∧ 0 ≤ y < 32) then Some (Canvas.mk 0 None 0) else None.
Proof.
  unfold init_db. cbn [get_db_connection txn empty_db canvas].
  destruct (bool_decide _) eqn:Hsize;
    [|by apply bool_decide_eq_false in Hsize; destruct Hsize].
  rewrite close_commit.
  destruct (init_grid_spec (Canvas.mk 0 None 0) (range 32) (range 32)
              (mkconn empty_db empty_db)) as (_ & Hu & Hp & _ & Hc).
  split; [exact Hu|]. split; [exact Hp|].
  intros x y. rewrite Hc. cbn [txn empty_db canvas]. rewrite lookup_empty.
  destruct (decide (x ∈ range 32 ∧ y ∈ range 32)) as [[Hx Hy]|Hn];
    destruct (decide (0 ≤ x < 32 ∧ 0 ≤ y < 32)) as [H|H]; try done; exfalso.
  - unfold range in Hx, Hy. rewrite elem_of_seqZ in Hx, Hy. lia.
  - apply Hn. unfold range. rewrite !elem_of_seqZ. lia.
Qed.

(** ** Invariants of the reachable states *)

Lemma balances_nonneg_handle req d : balances_nonneg d → balances_nonneg (handle req d).
Proof.
  intros Hinv.
  destruct req as [user new_id ts|submission|pixel ts| | | |]; cbn [handle]; try done.
  - destruct (register_user_db user new_id ts d) as [->|[_ ->]]; [done|].
    intros who u. simpl. rewrite lookup_insert. case_decide.
    + intros [= <-]. simpl. lia.
    + apply Hinv.
  - destruct (submit_reviews_db submission d) as [->|(a & t & Ha & _ & Hus & ->)]; [done|].
    intros who u. rewrite users_add_paint_balance, Hus. case_decide; [|apply Hinv].
    destruct (users d !! who) as [u0|] eqn:Hu0; simpl; [|done].
    intros [= <-]. simpl. specialize (Hinv who u0 Hu0). lia.
  - destruct (paint_pixel_db pixel ts d) as [->|[(u0 & Hu0 & Hb) ->]]; [done|].
    intros who u. unfold painted. rewrite users_add_paint_balance. simpl.
    case_decide; [|apply Hinv]. subst who. rewrite Hu0. simpl.
    intros [= <-]. simpl. lia.
Qed.

Lemma reachable_balances_nonneg d : reachable d → balances_nonneg d.
Proof.
  induction 1 as [|req d _ IH].
  - intros who u. destruct init_db_empty as (-> & _). by rewrite lookup_empty.
  - by apply balances_nonneg_handle.
Qed.

(** X18.  Served one at a time, no request makes a balance negative: in
    every state reachable from the initial one by whole requests, neither a
    stored balance nor one the balance route reports is below 0. *)
Theorem balance_never_negative (d : db) :
  reachable d →
  balances_nonneg d ∧ ∀ user_id b, balance user_id d = Some b → 0 ≤ b.
Proof.
  intros Hinv%reachable_balances_nonneg. split; [done|].
  intros user_id b (u & Hu & <-)%balance_Some. by apply (Hinv user_id).
Qed.

Lemma balance_never_negative_witness :
  balances_nonneg (handle (POST_paint (PixelUpdate.mk 3 4 5 bob) 300) db_funded).
Proof.
  refine (proj1 (balance_never_negative _ _)).
  apply reachable_step. unfold db_funded.
  apply reachable_step. unfold db_registered.
  apply reachable_step. apply reachable_init.
Defined.

(** ** Paints that overlap *)

(** [paint_pixel] is its checks followed by its write. *)
Lemma paint_pixel_check_write pixel timestamp d :
  paint_pixel pixel timestamp d =
  match paint_pixel_check pixel d with
  | Ok _ => paint_pixel_write pixel timestamp d
  | Raise e => (Raise e, d)
  end.
Proof.
  unfold paint_pixel, paint_pixel_check, paint_pixel_write.
  repeat case_bool_decide; simpl; try done.
  destruct (select_paint_balance _ _); [|done].
  by case_bool_decide.
Qed.

(** The states of requests served one at a time are states of the
    overlapping service, with no paint waiting. *)
Lemma reachable_interleaved d : reachable d → interleaved [] d.
Proof.
  induction 1 as [|req d _ IH]; [apply interleaved_init|].
  by apply interleaved_request.
Qed.

(** C5, on the code.  With a balance of 1, two paints of the same user that
    both read the balance before either writes both pass the check, both
    subtract 1, and leave the balance at -1. *)
Theorem overlapping_paints_overdraw :
  let first := PixelUpdate.mk 3 4 5 bob in
  let second := PixelUpdate.mk 0 0 15 bob in
  let d := (paint_pixel_write second 301
              (paint_pixel_write first 300 db_one_credit).2).2 in
  balance bob db_one_credit = Some 1
  ∧ paint_pixel_check first db_one_credit = Ok ()
  ∧ paint_pixel_check second db_one_credit = Ok ()
  ∧ interleaved [] d
  ∧ balance bob d = Some (-1).
Proof.
  cbv zeta. split; [by vm_compute|]. split; [by vm_compute|].
  split; [by vm_compute|]. split; [|by vm_compute].
  apply (interleaved_write (PixelUpdate.mk 0 0 15 bob) 301 [] []).
  apply (interleaved_write (PixelUpdate.mk 3 4 5 bob) 300 [] [PixelUpdate.mk 0 0 15 bob]).
  apply interleaved_check; [|by vm_compute].
  apply interleaved_check; [|by vm_compute].
  apply reachable_interleaved. unfold db_one_credit.
  apply reachable_step. unfold db_registered.
  apply reachable_step. apply reachable_init.
Qed.

Lemma canvas_full_handle req d : canvas_full d → canvas_full (handle req d).
Proof.
  intros Hinv.
  destruct req as [user new_id ts|submission|pixel ts| | | |]; cbn [handle]; try done.
  - by destruct (register_user_db user new_id ts d) as [->|[_ ->]].
  - destruct (submit_reviews_db submission d) as [->|(a & t & _ & Hc & _ & ->)]; [done|].
    intros x y. simpl. rewrite Hc. apply Hinv.
  - destruct (paint_pixel_db pixel ts d) as [->|[_ ->]]; [done|].
    intros x y. unfold painted; simpl. rewrite <- (Hinv x y), lookup_alter.
    case_decide as Heq; [|done]. injection Heq as <- <-. by rewrite fmap_is_Some.
Qed.

Lemma reachable_canvas_full d : reachable d → canvas_full d.
Proof.
  induction 1 as [|req d _ IH]; [|by apply canvas_full_handle].
  intros x y. destruct init_db_empty as (_ & _ & ->).
  case_decide; [by split; eauto|]. split; [by intros [? ?]|done].
Qed.

(** ** The flat grid of [get_canvas] *)

Lemma length_write_row grid row : length (write_row grid row) = length grid.
Proof. unfold write_row. case_bool_decide; [apply length_insert|done]. Qed.

Lemma length_foldl_write_row rows grid :
  length (foldl write_row grid rows) = length grid.
Proof.
  revert grid. induction rows as [|row rows IH]; intros grid; simpl; [done|].
  by rewrite IH, length_write_row.
Qed.

(** Rows that land on other indices leave index [i] alone. *)
Lemma foldl_write_row_other rows grid (i : Z) :
  0 ≤ i →
  Forall (λ row : Z * Z * Canvas.row, row.1.2 * 32 + row.1.1 ≠ i) rows →
  foldl write_row grid rows !! Z.to_nat i = grid !! Z.to_nat i.
Proof.
  intros Hi Hrows. revert grid.
  induction Hrows as [|row rows Hne _ IH]; intros grid; simpl; [done|].
  rewrite IH. unfold write_row. case_bool_decide; [|done].
  apply list_lookup_insert_ne. lia.
Qed.

(** With one row per key and all keys on the grid, each row is found at
    index y * 32 + x. *)
Lemma foldl_write_row_lookup (rows : list (Z * Z * Canvas.row)) grid x y row :
  NoDup rows.*1 →
  Forall (λ r : Z * Z * Canvas.row, 0 ≤ r.1.1 < 32 ∧ 0 ≤ r.1.2 < 32) rows →
  length grid = 1024%nat →
  (x, y, row) ∈ rows →
  foldl write_row grid rows !! Z.to_nat (y * 32 + x) = Some (Canvas.color row).
Proof.
  intros Hnd Hrange. revert grid.
  induction Hrange as [|r rows Hr Hrange IH]; intros grid Hlen Hin.
  { by apply elem_of_nil in Hin. }
  rewrite fmap_cons in Hnd. apply NoDup_cons in Hnd as [Hfresh Hnd].
  cbn [foldl]. apply elem_of_cons in Hin as [<-|Hin].
  - simpl in Hr. rewrite foldl_write_row_other; [|lia|].
    + unfold write_row. simpl. rewrite bool_decide_eq_true_2 by lia.
      apply list_lookup_insert_eq. lia.
    + apply Forall_forall. intros r' Hin'. simpl in Hfresh.
      rewrite Forall_forall in Hrange. specialize (Hrange r' Hin').
      intros Heq. apply Hfresh. apply list_elem_of_fmap. exists r'. split; [|done].
      destruct r' as [[x' y'] row']. simpl in *. f_equal; lia.
  - apply IH; [done| |done]. by rewrite length_write_row.
Qed.

(** C7.  In every reachable state [get_canvas] returns exactly 1024
    entries, and the entry at index y * 32 + x is the color of cell (x, y):
    row-major, y outside and x inside. *)
Theorem get_canvas_row_major (d : db) :
  reachable d →
  length (get_canvas d) = 1024%nat
  ∧ ∀ x y, 0 ≤ x < 32 → 0 ≤ y < 32 →
      ∃ row, canvas d !! (x, y) = Some row
             ∧ get_canvas d !! Z.to_nat (y * 32 + x) = Some (Canvas.color row).
Proof.
  intros Hfull%reachable_canvas_full. unfold get_canvas. split.
  - by rewrite length_foldl_write_row, length_replicate.
  - intros x y Hx Hy.
    destruct (proj2 (Hfull x y) (conj Hx Hy)) as [row Hrow].
    exists row. split; [done|].
    apply foldl_write_row_lookup.
    + apply NoDup_fst_map_to_list.
    + apply Forall_forall. intros [[x' y'] row'] Hin%elem_of_map_to_list.
      simpl. apply Hfull. eauto.
    + by rewrite length_replicate.
    + by apply elem_of_map_to_list.
Qed.

Lemma get_canvas_row_major_witness :
  length (get_canvas (handle (POST_paint (PixelUpdate.mk 3 4 5 bob) 300) db_funded))
  = 1024%nat
  ∧ ∃ row,
      canvas (handle (POST_paint (PixelUpdate.mk 3 4 5 bob) 300) db_funded) !! (3, 4)
      = Some row
      ∧ get_canvas (handle (POST_paint (PixelUpdate.mk 3 4 5 bob) 300) db_funded)
          !! Z.to_nat (4 * 32 + 3)
        = Some (Canvas.color row).
Proof.
  destruct (get_canvas_row_major
              (handle (POST_paint (PixelUpdate.mk 3 4 5 bob) 300) db_funded))
    as [Hlen Hcell].
  - apply reachable_step. unfold db_funded.
    apply reachable_step. unfold db_registered.
    apply reachable_step. apply reachable_init.
  - split; [exact Hlen|]. apply (Hcell 3 4); lia.
Defined.

(** * Further properties of the routes *)

(** ** Shared facts *)

Lemma reachable_run reqs d : reachable d → reachable (run reqs d).
Proof.
  unfold run. revert d. induction reqs as [|req reqs IH]; intros d Hd; simpl; [done|].
  by apply IH, reachable_step.
Qed.

(** ** [init_db] *)

Lemma init_db_frame d :
  users (init_db d) = users d ∧ review_proofs (init_db d) = review_proofs d
  ∧ review_proofs_null (init_db d) = review_proofs_null d.
Proof.
  unfold init_db. rewrite close_commit. destruct (bool_decide _); [|done].
  destruct (init_grid_spec (Canvas.mk 0 None 0) (range 32) (range 32)
              (get_db_connection d)) as (_ & Hu & Hp & Hnull & _).
  done.
Qed.

Lemma init_db_nonempty d : canvas d ≠ ∅ → init_db d = d.
Proof.
  intros Hne. unfold init_db. rewrite close_commit.
  destruct (bool_decide _) eqn:Hsize; [|done].
  apply bool_decide_eq_true in Hsize. simpl in Hsize.
  by apply map_size_empty_iff in Hsize.
Qed.

Lemma init_db_fresh d x y :
  canvas d = ∅ →
  canvas (init_db d) !! (x, y) =
  if decide (0 ≤ x < 32 ∧ 0 ≤ y < 32) then Some (Canvas.mk 0 None 0) else None.
Proof.
  intros Hempty. unfold init_db. rewrite close_commit.
  destruct (bool_decide _) eqn:Hsize.
  2:{ apply bool_decide_eq_false in Hsize. destruct Hsize. simpl.
      by rewrite Hempty. }
  destruct (init_grid_spec (Canvas.mk 0 None 0) (range 32) (range 32)
              (get_db_connection d)) as (_ & _ & _ & _ & Hc).
  rewrite Hc. simpl. rewrite Hempty, lookup_empty.
  destruct (decide (x ∈ range 32 ∧ y ∈ range 32)) as [[Hx Hy]|Hn];
    destruct (decide (0 ≤ x < 32 ∧ 0 ≤ y < 32)) as [H|H]; try done; exfalso.
  - unfold range in Hx, Hy. rewrite elem_of_seqZ in Hx, Hy. lia.
  - apply Hn. unfold range. rewrite !elem_of_seqZ. lia.
Qed.

(** ** Reading the flat grid *)

Lemma length_get_canvas d : length (get_canvas d) = 1024%nat.
Proof. unfold get_canvas. by rewrite length_foldl_write_row, length_replicate. Qed.

Lemma get_canvas_cell d x y row :
  canvas_full d → canvas d !! (x, y) = Some row →
  get_canvas d !! Z.to_nat (y * 32 + x) = Some (Canvas.color row).
Proof.
  intros Hfull Hrow. unfold get_canvas. apply foldl_write_row_lookup.
  - apply NoDup_fst_map_to_list.
  - apply Forall_forall. intros [[x' y'] row'] Hin%elem_of_map_to_list.
    simpl. apply Hfull. eauto.
  - by rewrite length_replicate.
  - by apply elem_of_map_to_list.
Qed.

(** The entry at a position [i] of the grid, read as cell
    [(i mod 32, i / 32)]. *)
Lemma get_canvas_lookup d (i : nat) :
  canvas_full d → (i < 1024)%nat →
  get_canvas d !! i
  = Canvas.color <$> canvas d !! (Z.of_nat i `mod` 32, Z.of_nat i `div` 32).
Proof.
  intros Hfull Hi.
  assert (0 ≤ Z.of_nat i `mod` 32 < 32) as Hx by (apply Z.mod_pos_bound; lia).
  assert (0 ≤ Z.of_nat i `div` 32 < 32) as Hy.
  { split; [apply Z.div_pos; lia | apply Z.div_lt_upper_bound; lia]. }
  destruct (proj2 (Hfull _ _) (conj Hx Hy)) as [row Hrow].
  rewrite Hrow. simpl. rewrite <- (get_canvas_cell d _ _ row Hfull Hrow).
  f_equal. pose proof (Z.div_mod (Z.of_nat i) 32). lia.
Qed.

Lemma canvas_full_init d : canvas d = ∅ → canvas_full (init_db d).
Proof.
  intros Hempty x y. rewrite init_db_fresh by done.
  case_decide; [by split; eauto|]. split; [by intros [? ?]|done].
Qed.

(** X1.  Starting the service again on a database whose canvas has rows
    leaves the database as it is; so does a restart in any reachable state:
    the canvas is filled once and never wiped. *)
Theorem init_db_restart (d : db) :
  (canvas d ≠ ∅ → init_db d = d) ∧ (reachable d → init_db d = d).
Proof.
  split; [apply init_db_nonempty|].
  intros Hfull%reachable_canvas_full. apply init_db_nonempty.
  destruct (proj2 (Hfull 0 0)) as [row Hrow]; [lia|].
  intros Hempty. by rewrite Hempty, lookup_empty in Hrow.
Qed.

Lemma init_db_restart_witness : init_db db_funded = db_funded.
Proof.
  apply (proj2 (init_db_restart db_funded)).
  unfold db_funded. apply reachable_step. unfold db_registered.
  apply reachable_step. apply reachable_init.
Defined.

(** X2.  On a database with an empty canvas, [init_db] creates a row for
    exactly the cells with 0 <= x, y < 32, each with color 0, no editor and
    time 0, keeps users and proofs, and the grid then reads as 1024 zeros. *)
Theorem init_db_blank (d : db) :
  canvas d = ∅ →
  (∀ x y, canvas (init_db d) !! (x, y) =
          if decide (0 ≤ x < 32 ∧ 0 ≤ y < 32)
          then Some (Canvas.mk 0 None 0) else None)
  ∧ users (init_db d) = users d
  ∧ review_proofs (init_db d) = review_proofs d
  ∧ review_proofs_null (init_db d) = review_proofs_null d
  ∧ get_canvas (init_db d) = replicate 1024 0.
Proof.
  intros Hempty. split; [intros x y; by apply init_db_fresh|].
  destruct (init_db_frame d) as (Hu & Hp & Hnull). do 3 (split; [done|]).
  apply list_eq. intros i. destruct (decide (i < 1024)%nat) as [Hi|Hi].
  - rewrite get_canvas_lookup by (by try apply canvas_full_init).
    rewrite init_db_fresh by done. rewrite lookup_replicate_2 by done.
    rewrite decide_True; [done|]. split.
    + apply Z.mod_pos_bound; lia.
    + split; [apply Z.div_pos; lia | apply Z.div_lt_upper_bound; lia].
  - rewrite !lookup_ge_None_2; [done| |].
    + rewrite length_replicate. lia.
    + rewrite length_get_canvas. lia.
Qed.

Lemma init_db_blank_witness : get_canvas (init_db empty_db) = replicate 1024 0.
Proof.
  refine (proj2 (proj2 (proj2 (proj2 (init_db_blank empty_db _))))). reflexivity.
Defined.

(** ** Registration *)

(** X3.  Registering under an identifier that is not in use succeeds: the
    new user has balance 0, the given name and the time of registration, and
    nothing else changes.  Under an identifier already in use the INSERT is
    refused and the database, the existing account included, stays as it
    was. *)
Theorem register_user_outcome (user : UserRegister.t) (new_id : string)
    (timestamp : REAL) (d : db) :
  (users d !! new_id = None →
   ∃ d', register_user user new_id timestamp d
         = (Ok (new_id, UserRegister.username user), d')
         ∧ get_balance new_id d' = Ok (new_id, 0)
         ∧ get_user new_id d' = Ok (new_id, UserRegister.username user, timestamp)
         ∧ (∀ other, other ≠ new_id → users d' !! other = users d !! other)
         ∧ canvas d' = canvas d
         ∧ review_proofs d' = review_proofs d
         ∧ review_proofs_null d' = review_proofs_null d)
  ∧ (is_Some (users d !! new_id) →
     register_user user new_id timestamp d = (Raise IntegrityError, d)).
Proof.
  unfold register_user, insert_user. simpl. split.
  - intros ->. eexists. split; [reflexivity|]. simpl.
    unfold get_balance, select_paint_balance, get_user. simpl.
    rewrite lookup_insert_eq. simpl. repeat split.
    intros other Hne. by rewrite lookup_insert_ne.
  - by intros [u ->].
Qed.

Lemma register_user_outcome_witness :
  (∃ d', register_user (UserRegister.mk "Eve") eve 150 db_funded
         = (Ok (eve, "Eve"), d')
         ∧ get_balance eve d' = Ok (eve, 0)
         ∧ get_user eve d' = Ok (eve, "Eve", 150)
         ∧ (∀ other, other ≠ eve → users d' !! other = users db_funded !! other)
         ∧ canvas d' = canvas db_funded
         ∧ review_proofs d' = review_proofs db_funded
         ∧ review_proofs_null d' = review_proofs_null db_funded)
  ∧ register_user (UserRegister.mk "Mallory") bob 160 db_funded
    = (Raise IntegrityError, db_funded).
Proof.
  split.
  - apply (proj1 (register_user_outcome (UserRegister.mk "Eve") eve 150 db_funded)).
    by vm_compute.
  - apply (proj2 (register_user_outcome (UserRegister.mk "Mallory") bob 160 db_funded)).
    vm_compute. eexists; reflexivity.
Defined.

(** ** What no request undoes *)

Lemma handle_user_kept req d user_id u :
  users d !! user_id = Some u →
  ∃ u', users (handle req d) !! user_id = Some u'
        ∧ Users.username u' = Users.username u
        ∧ Users.created_at u' = Users.created_at u.
Proof.
  intros Hu.
  destruct req as [user new_id ts|submission|pixel ts| | | |]; cbn [handle]; eauto.
  - destruct (register_user_db user new_id ts d) as [->|[Hnew ->]]; [eauto|].
    simpl. rewrite lookup_insert_ne by congruence. eauto.
  - destruct (submit_reviews_db submission d) as [->|(a & t & _ & _ & Hus & ->)]; [eauto|].
    rewrite users_add_paint_balance, Hus, Hu. case_decide; simpl; eauto.
  - destruct (paint_pixel_db pixel ts d) as [->|[_ ->]]; [eauto|].
    unfold painted. rewrite users_add_paint_balance. simpl. rewrite Hu.
    case_decide; simpl; eauto.
Qed.

Lemma handle_proofs_mono req d :
  review_proofs d ⊆ review_proofs (handle req d)
  ∧ review_proofs_null d `prefix_of` review_proofs_null (handle req d).
Proof.
  destruct req as [user new_id ts|submission|pixel ts| | | |]; cbn [handle]; try done.
  - by destruct (register_user_db user new_id ts d) as [->|[_ ->]].
  - destruct (users d !! ReviewSubmission.user_id submission) as [u|] eqn:Hu.
    2:{ by rewrite submit_reviews_unknown. }
    destruct (decide (sqlite_ints (ReviewSubmission.proofs submission))) as [Hints|Hints].
    2:{ by rewrite (submit_reviews_overflow submission d u). }
    rewrite (submit_reviews_closed submission d u Hu Hints). simpl. split.
    + apply union_subseteq_r.
    + by apply prefix_app_r.
  - by destruct (paint_pixel_db pixel ts d) as [->|[_ ->]].
Qed.

(** X4.  Users are never removed or renamed: whatever [GET /user/{id}]
    answers for an existing user, it answers the same after any sequence of
    requests. *)
Theorem user_permanent (reqs : list request) (d : db) (user_id : string)
    (r : string * string * Z) :
  get_user user_id d = Ok r → get_user user_id (run reqs d) = Ok r.
Proof.
  unfold run. revert d. induction reqs as [|req reqs IH]; intros d Hr; simpl; [done|].
  apply IH. unfold get_user in *.
  destruct (users d !! user_id) as [u|] eqn:Hu; [|done].
  destruct (handle_user_kept req d user_id u Hu) as (u' & -> & Hn & Hc).
  by rewrite Hn, Hc.
Qed.

Lemma user_permanent_witness :
  get_user bob
    (run [POST_paint (PixelUpdate.mk 3 4 5 bob) 300;
          POST_user (UserRegister.mk "Mallory") bob 310;
          POST_submit_reviews (ReviewSubmission.mk bob (cards 25 10))] db_funded)
  = Ok (bob, "Bob", 100).
Proof.
  apply (user_permanent _ db_funded bob (bob, "Bob", 100)).
  vm_compute; reflexivity.
Defined.

(** X5.  Recorded proofs are never deleted: every proof recorded before a
    sequence of requests is still recorded after it, the rows with a NULL
    timestamp included, which stay in place. *)
Theorem proofs_append_only (reqs : list request) (d : db) :
  review_proofs d ⊆ review_proofs (run reqs d)
  ∧ review_proofs_null d `prefix_of` review_proofs_null (run reqs d).
Proof.
  unfold run. revert d. induction reqs as [|req reqs IH]; intros d; simpl; [done|].
  destruct (handle_proofs_mono req d) as [Hs Hp]. destruct (IH (handle req d)) as [Hs' Hp'].
  split; by etrans.
Qed.

(** ** Counting and recording submitted proofs *)

(** X6.  For an existing user and card identifiers that fit an INTEGER the
    submission succeeds, and new_count is the number of distinct keys
    submitted with a number as timestamp that were not yet recorded (repeats
    inside the batch and proofs recorded earlier count for nothing) plus the
    number of submitted proofs whose timestamp is NaN, every occurrence
    counted.  With a card identifier that does not fit, the call ends in
    OverflowError and the database stays as it was. *)
Theorem submit_counts_unrecorded (submission : ReviewSubmission.t) (d : db) :
  is_Some (users d !! ReviewSubmission.user_id submission) →
  (sqlite_ints (ReviewSubmission.proofs submission) →
   ∃ r d',
     submit_reviews submission d = (Ok r, d')
     ∧ SubmitResult.new_proofs r
       = Z.of_nat (size (proof_keys (ReviewSubmission.user_id submission)
                           (ReviewSubmission.proofs submission)
                         ∖ review_proofs d)
                   + length (null_rows (ReviewSubmission.user_id submission)
                               (ReviewSubmission.proofs submission))))
  ∧ (¬ sqlite_ints (ReviewSubmission.proofs submission) →
     submit_reviews submission d = (Raise OverflowError, d)).
Proof.
  intros [u Hu]. split.
  - intros Hints. rewrite (submit_reviews_closed submission d u Hu Hints). eauto.
  - intros Hints. by apply submit_reviews_overflow with u.
Qed.

Lemma submit_counts_unrecorded_witness :
  (∃ r d',
     submit_reviews
       (ReviewSubmission.mk bob (cards 20 10 ++ cards 20 10 ++ cards_nan 0 2 ++ cards_nan 0 2))
       db_funded = (Ok r, d')
     ∧ SubmitResult.new_proofs r
       = Z.of_nat (size (proof_keys bob
                           (cards 20 10 ++ cards 20 10 ++ cards_nan 0 2 ++ cards_nan 0 2)
                         ∖ review_proofs db_funded)
                   + length (null_rows bob
                               (cards 20 10 ++ cards 20 10 ++ cards_nan 0 2
                                  ++ cards_nan 0 2))))
  ∧ submit_reviews (ReviewSubmission.mk bob [ReviewProof.mk (2 ^ 63) (num 200)]) db_funded
    = (Raise OverflowError, db_funded).
Proof.
  split.
  - apply (proj1 (submit_counts_unrecorded
                    (ReviewSubmission.mk bob
                       (cards 20 10 ++ cards 20 10 ++ cards_nan 0 2 ++ cards_nan 0 2))
                    db_funded (ex_intro _ (Users.mk "Bob" 2 100) eq_refl))).
    apply (bool_decide_unpack _). vm_compute. exact I.
  - apply (proj2 (submit_counts_unrecorded
                    (ReviewSubmission.mk bob [ReviewProof.mk (2 ^ 63) (num 200)])
                    db_funded (ex_intro _ (Users.mk "Bob" 2 100) eq_refl))).
    intros Hints. apply (bool_decide_pack _) in Hints. vm_compute in Hints. exact Hints.
Defined.

Lemma proof_keys_same user_id proofs1 proofs2 :
  (∀ proof, proof ∈ proofs1 ↔ proof ∈ proofs2) →
  proof_keys user_id proofs1 = proof_keys user_id proofs2.
Proof.
  intros Hsame. apply set_eq. intros k. rewrite !proof_keys_elem_of.
  split; intros (p & Hp & Hk); exists p; (split; [|done]); by apply Hsame.
Qed.

(** X7.  For proofs whose timestamps are numbers, neither the order of the
    proofs in a batch nor repeats among them matter: two such batches with
    the same proofs get the same response and leave the same database. *)
Theorem submit_order_irrelevant (user_id : string)
    (proofs1 proofs2 : list ReviewProof.t) (d : db) :
  numbers proofs1 →
  (∀ proof, proof ∈ proofs1 ↔ proof ∈ proofs2) →
  submit_reviews (ReviewSubmission.mk user_id proofs1) d
  = submit_reviews (ReviewSubmission.mk user_id proofs2) d.
Proof.
  intros Hnum1 Hsame.
  assert (numbers proofs2) as Hnum2.
  { unfold numbers in *. rewrite Forall_forall in Hnum1. apply Forall_forall.
    intros p Hp. by apply Hnum1, Hsame. }
  destruct (users d !! user_id) as [u|] eqn:Hu.
  2:{ by rewrite !submit_reviews_unknown. }
  destruct (decide (sqlite_ints proofs1)) as [Hints1|Hints1].
  - assert (sqlite_ints proofs2) as Hints2.
    { unfold sqlite_ints in *. rewrite Forall_forall in Hints1. apply Forall_forall.
      intros p Hp. by apply Hints1, Hsame. }
    rewrite (submit_reviews_closed (ReviewSubmission.mk user_id proofs1) d u Hu Hints1).
    rewrite (submit_reviews_closed (ReviewSubmission.mk user_id proofs2) d u Hu Hints2).
    cbn [ReviewSubmission.user_id ReviewSubmission.proofs].
    rewrite (proof_keys_same user_id proofs1 proofs2 Hsame).
    by rewrite !numbers_null_rows.
  - assert (¬ sqlite_ints proofs2) as Hints2.
    { intros Hints2. apply Hints1. unfold sqlite_ints in *.
      rewrite Forall_forall in Hints2. apply Forall_forall.
      intros p Hp. by apply Hints2, Hsame. }
    rewrite (submit_reviews_overflow (ReviewSubmission.mk user_id proofs1) d u Hu Hints1).
    by rewrite (submit_reviews_overflow (ReviewSubmission.mk user_id proofs2) d u Hu Hints2).
Qed.

Lemma submit_order_irrelevant_witness :
  submit_reviews
    (ReviewSubmission.mk bob [ReviewProof.mk 41 (num 200); ReviewProof.mk 42 (num 200)])
    db_funded
  = submit_reviews
      (ReviewSubmission.mk bob
         [ReviewProof.mk 42 (num 200); ReviewProof.mk 41 (num 200);
          ReviewProof.mk 42 (num 200)])
      db_funded.
Proof.
  apply (submit_order_irrelevant bob).
  - repeat constructor; discriminate.
  - intros proof. rewrite !elem_of_cons, elem_of_nil. tauto.
Defined.

(** X8.  Proofs are recorded per user: what one user submits does not
    change the response another user gets for a batch. *)
Theorem proofs_are_per_user (a b : string) (proofs_a proofs_b : list ReviewProof.t)
    (d : db) :
  a ≠ b →
  (submit_reviews (ReviewSubmission.mk b proofs_b)
     (submit_reviews (ReviewSubmission.mk a proofs_a) d).2).1
  = (submit_reviews (ReviewSubmission.mk b proofs_b) d).1.
Proof.
  intros Hab. destruct (users d !! a) as [ua|] eqn:Hua.
  2:{ by rewrite (submit_reviews_unknown (ReviewSubmission.mk a proofs_a)). }
  destruct (decide (sqlite_ints proofs_a)) as [Hints_a|Hints_a].
  2:{ by rewrite (submit_reviews_overflow (ReviewSubmission.mk a proofs_a) d ua). }
  rewrite (submit_reviews_closed (ReviewSubmission.mk a proofs_a) d ua Hua Hints_a).
  cbn [snd ReviewSubmission.user_id ReviewSubmission.proofs].
  set (d1 := add_paint_balance _ a _).
  assert (users d1 !! b = users d !! b) as Hb1.
  { unfold d1. by rewrite users_add_paint_balance, decide_False. }
  destruct (users d !! b) as [ub|] eqn:Hub.
  2:{ by rewrite !submit_reviews_unknown. }
  destruct (decide (sqlite_ints proofs_b)) as [Hints_b|Hints_b].
  2:{ rewrite (submit_reviews_overflow (ReviewSubmission.mk b proofs_b) d1 ub) by done.
      by rewrite (submit_reviews_overflow (ReviewSubmission.mk b proofs_b) d ub). }
  rewrite (submit_reviews_closed (ReviewSubmission.mk b proofs_b) d1 ub Hb1 Hints_b).
  rewrite (submit_reviews_closed (ReviewSubmission.mk b proofs_b) d ub Hub Hints_b).
  cbn [fst ReviewSubmission.user_id ReviewSubmission.proofs].
  assert (proof_keys b proofs_b ∖ review_proofs d1
          = proof_keys b proofs_b ∖ review_proofs d) as ->; [|done].
  unfold d1. cbn [add_paint_balance review_proofs].
  apply set_eq. intros k. rewrite !elem_of_difference, elem_of_union.
  split; [tauto|]. intros [Hk Hn]. split; [done|]. intros [Hka|?]; [|done].
  apply proof_keys_user in Hk, Hka. congruence.
Qed.

Lemma proofs_are_per_user_witness :
  (submit_reviews (ReviewSubmission.mk eve (cards 0 25))
     (submit_reviews (ReviewSubmission.mk bob (cards 0 25)) db_two_users).2).1
  = (submit_reviews (ReviewSubmission.mk eve (cards 0 25)) db_two_users).1.
Proof.
  apply (proofs_are_per_user bob eve). discriminate.
Defined.

(** X9.  A successful submission leaves the canvas and every other user's
    row as they were, changes only the balance in the submitter's row (by the
    award), and adds the submitted keys to the recorded proofs, and a row
    with a NULL timestamp for every submitted proof whose timestamp is
    NaN. *)
Theorem submit_frame (submission : ReviewSubmission.t) (d d' : db)
    (r : SubmitResult.t) :
  submit_reviews submission d = (Ok r, d') →
  canvas d' = canvas d
  ∧ (∀ other, other ≠ ReviewSubmission.user_id submission →
              users d' !! other = users d !! other)
  ∧ (∃ u, users d !! ReviewSubmission.user_id submission = Some u
          ∧ users d' !! ReviewSubmission.user_id submission
            = Some (Users.mk (Users.username u)
                      (Users.paint_balance u + SubmitResult.paint_awarded r)
                      (Users.created_at u)))
  ∧ review_proofs d'
    = proof_keys (ReviewSubmission.user_id submission)
        (ReviewSubmission.proofs submission) ∪ review_proofs d
  ∧ review_proofs_null d'
    = review_proofs_null d
      ++ null_rows (ReviewSubmission.user_id submission)
           (ReviewSubmission.proofs submission).
Proof.
  destruct (users d !! ReviewSubmission.user_id submission) as [u|] eqn:Hu.
  2:{ by rewrite submit_reviews_unknown. }
  destruct (decide (sqlite_ints (ReviewSubmission.proofs submission))) as [Hints|Hints].
  2:{ by rewrite (submit_reviews_overflow submission d u). }
  rewrite (submit_reviews_closed submission d u Hu Hints). intros [= <- <-]. simpl.
  split; [done|]. split; [|split; [|done]].
  - intros other Hne. rewrite lookup_alter_ne; done.
  - exists u. split; [done|]. by rewrite lookup_alter_eq, Hu.
Qed.

Lemma submit_frame_witness :
  canvas (submit_reviews (ReviewSubmission.mk bob (cards 25 10)) db_funded).2
  = canvas db_funded.
Proof.
  refine (proj1 (submit_frame (ReviewSubmission.mk bob (cards 25 10)) db_funded
                   (submit_reviews (ReviewSubmission.mk bob (cards 25 10)) db_funded).2
                   (SubmitResult.mk 10 1) _)).
  apply pair_fst_eq. vm_compute; reflexivity.
Defined.

(** ** Painting, read back *)

Lemma canvas_painted pixel timestamp d k :
  canvas (painted pixel timestamp d) !! k =
  if decide ((PixelUpdate.x pixel, PixelUpdate.y pixel) = k)
  then (λ _, Canvas.mk (PixelUpdate.color pixel) (Some (PixelUpdate.user_id pixel))
                       timestamp) <$> canvas d !! k
  else canvas d !! k.
Proof.
  unfold painted. simpl. rewrite lookup_alter. case_decide; by subst.
Qed.

Lemma canvas_full_painted pixel timestamp d :
  canvas_full d → canvas_full (painted pixel timestamp d).
Proof.
  intros Hfull x y. rewrite canvas_painted, <- (Hfull x y).
  case_decide; [|done]. by rewrite fmap_is_Some.
Qed.

(** X10.  After a successful paint in a reachable state the grid is the
    grid before with the entry at index y * 32 + x replaced by the new
    color. *)
Theorem paint_get_canvas (pixel : PixelUpdate.t) (timestamp : REAL) (d d' : db)
    (r : PaintResult.t) :
  reachable d →
  paint_pixel pixel timestamp d = (Ok r, d') →
  get_canvas d'
  = <[Z.to_nat (PixelUpdate.y pixel * 32 + PixelUpdate.x pixel)
      := PixelUpdate.color pixel]> (get_canvas d).
Proof.
  intros Hfull%reachable_canvas_full ([Hx Hy] & _ & _ & ->)%paint_pixel_Ok.
  apply list_eq. intros i. destruct (decide (i < 1024)%nat) as [Hi|Hi].
  2:{ rewrite !lookup_ge_None_2; [done| |].
      - rewrite length_insert, length_get_canvas. lia.
      - rewrite length_get_canvas. lia. }
  rewrite get_canvas_lookup by (by try apply canvas_full_painted).
  rewrite canvas_painted.
  pose proof (Z.div_mod (Z.of_nat i) 32) as Hdm.
  pose proof (Z.mod_pos_bound (Z.of_nat i) 32) as Hm.
  destruct (decide (Z.to_nat (PixelUpdate.y pixel * 32 + PixelUpdate.x pixel) = i))
    as [Heq|Hne].
  - subst i. rewrite list_lookup_insert_eq by (rewrite length_get_canvas; lia).
    destruct (proj2 (Hfull _ _) (conj Hx Hy)) as [row Hrow].
    rewrite Z2Nat.id in * by lia.
    assert ((PixelUpdate.y pixel * 32 + PixelUpdate.x pixel) `mod` 32
            = PixelUpdate.x pixel) as ->.
    { rewrite Z.add_comm, Z.mod_add, Z.mod_small; lia. }
    assert ((PixelUpdate.y pixel * 32 + PixelUpdate.x pixel) `div` 32
            = PixelUpdate.y pixel) as ->.
    { rewrite Z.add_comm, Z.div_add, Z.div_small; lia. }
    rewrite decide_True by done. by rewrite Hrow.
  - rewrite list_lookup_insert_ne by done.
    rewrite decide_False; [by rewrite get_canvas_lookup|].
    intros [= Hx' Hy']. apply Hne. lia.
Qed.

Lemma paint_get_canvas_witness :
  get_canvas (paint_pixel (PixelUpdate.mk 3 4 5 bob) 300 db_funded).2
  = <[Z.to_nat (4 * 32 + 3) := 5]> (get_canvas db_funded).
Proof.
  refine (paint_get_canvas (PixelUpdate.mk 3 4 5 bob) 300 db_funded
            (paint_pixel (PixelUpdate.mk 3 4 5 bob) 300 db_funded).2
            (PaintResult.mk 3 4 5) _ _).
  - unfold db_funded. apply reachable_step. unfold db_registered.
    apply reachable_step. apply reachable_init.
  - apply pair_fst_eq. vm_compute; reflexivity.
Defined.

(** X11.  After a successful paint in a reachable state the details of the
    painted cell show the new color, the painter's identifier and name, and
    the time of the paint. *)
Theorem paint_get_pixel_details (pixel : PixelUpdate.t) (timestamp : REAL)
    (d d' : db) (r : PaintResult.t) :
  reachable d →
  paint_pixel pixel timestamp d = (Ok r, d') →
  ∃ u, users d !! PixelUpdate.user_id pixel = Some u
       ∧ get_pixel_details (PixelUpdate.x pixel) (PixelUpdate.y pixel) d'
         = Ok (Some (PixelDetails.mk (PixelUpdate.x pixel) (PixelUpdate.y pixel)
                       (PixelUpdate.color pixel) (Some (PixelUpdate.user_id pixel))
                       (Some (Users.username u)) timestamp)).
Proof.
  intros Hfull%reachable_canvas_full ([Hx Hy] & _ & (u & Hu & _) & ->)%paint_pixel_Ok.
  exists u. split; [done|]. unfold get_pixel_details.
  rewrite !bool_decide_eq_true_2 by done. simpl negb. cbv iota.
  destruct (proj2 (Hfull _ _) (conj Hx Hy)) as [row Hrow].
  rewrite canvas_painted, decide_True, Hrow by done. simpl.
  by rewrite lookup_alter_eq, Hu.
Qed.

Lemma paint_get_pixel_details_witness :
  ∃ u, users db_funded !! bob = Some u
       ∧ get_pixel_details 3 4 (paint_pixel (PixelUpdate.mk 3 4 5 bob) 300 db_funded).2
         = Ok (Some (PixelDetails.mk 3 4 5 (Some bob) (Some (Users.username u)) 300)).
Proof.
  refine (paint_get_pixel_details (PixelUpdate.mk 3 4 5 bob) 300 db_funded
            (paint_pixel (PixelUpdate.mk 3 4 5 bob) 300 db_funded).2
            (PaintResult.mk 3 4 5) _ _).
  - unfold db_funded. apply reachable_step. unfold db_registered.
    apply reachable_step. apply reachable_init.
  - apply pair_fst_eq. vm_compute; reflexivity.
Defined.

(** ** What the cells of a reachable canvas hold *)

Lemma handle_users_is_Some req d user_id :
  is_Some (users d !! user_id) → is_Some (users (handle req d) !! user_id).
Proof.
  intros [u Hu]. destruct (handle_user_kept req d user_id u Hu) as (u' & -> & _). eauto.
Qed.

(** A row found after a request was there before, or has just been painted
    by an existing user with a color of the palette. *)
Lemma handle_canvas_cases req d k row :
  canvas (handle req d) !! k = Some row →
  canvas d !! k = Some row
  ∨ ∃ pixel timestamp,
      req = POST_paint pixel timestamp
      ∧ in_palette pixel
      ∧ is_Some (users d !! PixelUpdate.user_id pixel)
      ∧ row = Canvas.mk (PixelUpdate.color pixel) (Some (PixelUpdate.user_id pixel))
                        timestamp.
Proof.
  destruct req as [user new_id ts|submission|pixel ts| | | |]; cbn [handle]; auto.
  - destruct (register_user_db user new_id ts d) as [->|[_ ->]]; auto.
  - destruct (submit_reviews_db submission d) as [->|(a & t & _ & Hc & _ & ->)]; auto.
    simpl. rewrite Hc. auto.
  - destruct (paint_pixel_cases pixel ts d)
      as [(_ & ->)|[(_ & _ & ->)|[(_ & _ & _ & ->)|[(_ & _ & _ & ->)
         |(_ & Hc & (u & Hu & _) & ->)]]]]; auto.
    cbn [snd]. rewrite canvas_painted. case_decide; auto.
    destruct (canvas d !! k); simpl; [|done]. intros [= <-].
    right. exists pixel, ts. eauto.
Qed.

Lemma reachable_colors_in_palette d : reachable d → colors_in_palette d.
Proof.
  induction 1 as [|req d _ IH]; intros k row Hrow.
  - destruct k as [x y]. destruct init_db_empty as (_ & _ & Hc).
    rewrite Hc in Hrow. case_decide; [|done]. injection Hrow as <-. simpl. lia.
  - apply handle_canvas_cases in Hrow as [Hrow|(pixel & ts & _ & Hc & _ & ->)].
    + by apply (IH k).
    + exact Hc.
Qed.

Lemma reachable_editors_exist d : reachable d → editors_exist d.
Proof.
  induction 1 as [|req d _ IH]; intros k row u Hrow Hed.
  - destruct k as [x y]. destruct init_db_empty as (_ & _ & Hc).
    rewrite Hc in Hrow. case_decide; [|done]. by injection Hrow as <-.
  - apply handle_users_is_Some.
    apply handle_canvas_cases in Hrow as [Hrow|(pixel & ts & _ & _ & Hu & ->)].
    + by apply (IH k row).
    + simpl in Hed. by injection Hed as <-.
Qed.

Lemma reachable_unpainted_blank d : reachable d → unpainted_blank d.
Proof.
  induction 1 as [|req d _ IH]; intros k row Hrow Hed.
  - destruct k as [x y]. destruct init_db_empty as (_ & _ & Hc).
    rewrite Hc in Hrow. case_decide; [|done]. by injection Hrow as <-.
  - apply handle_canvas_cases in Hrow as [Hrow|(pixel & ts & _ & _ & _ & ->)].
    + by apply (IH k).
    + done.
Qed.

(** X12.  In every reachable state each of the 1024 entries of the grid is
    a color of the palette, 0 to 15. *)
Theorem get_canvas_in_palette (d : db) :
  reachable d → Forall (λ c, 0 ≤ c < 16) (get_canvas d).
Proof.
  intros Hd. apply Forall_lookup. intros i c Hi.
  assert (i < 1024)%nat as Hlt.
  { rewrite <- (length_get_canvas d). by eapply lookup_lt_Some. }
  rewrite get_canvas_lookup in Hi by (by try apply reachable_canvas_full).
  apply fmap_Some in Hi as (row & Hrow & ->).
  by eapply reachable_colors_in_palette.
Qed.

Lemma get_canvas_in_palette_witness :
  Forall (λ c, 0 ≤ c < 16)
    (get_canvas (handle (POST_paint (PixelUpdate.mk 3 4 5 bob) 300) db_funded)).
Proof.
  apply get_canvas_in_palette.
  apply reachable_step. unfold db_funded. apply reachable_step.
  unfold db_registered. apply reachable_step. apply reachable_init.
Defined.

(** X13.  In every reachable state the details of a cell of the grid are
    always found; their color is the grid's entry at y * 32 + x; a cell with
    no last editor is blank (color 0, time 0, no name); and a last editor is
    always an existing user, whose name is shown. *)
Theorem get_pixel_details_reachable (x y : Z) (d : db) :
  reachable d → 0 ≤ x < 32 → 0 ≤ y < 32 →
  ∃ details,
    get_pixel_details x y d = Ok (Some details)
    ∧ PixelDetails.x details = x ∧ PixelDetails.y details = y
    ∧ get_canvas d !! Z.to_nat (y * 32 + x) = Some (PixelDetails.color details)
    ∧ (PixelDetails.last_user_id details = None →
       PixelDetails.color details = 0
       ∧ PixelDetails.last_modified details = 0
       ∧ PixelDetails.username details = None)
    ∧ (∀ user_id, PixelDetails.last_user_id details = Some user_id →
         ∃ u, users d !! user_id = Some u
              ∧ PixelDetails.username details = Some (Users.username u)).
Proof.
  intros Hd Hx Hy. pose proof (reachable_canvas_full d Hd) as Hfull.
  destruct (proj2 (Hfull x y) (conj Hx Hy)) as [row Hrow].
  unfold get_pixel_details. rewrite !bool_decide_eq_true_2 by done.
  simpl negb. cbv iota. rewrite Hrow. eexists. split; [reflexivity|]. simpl.
  split; [done|]. split; [done|]. split; [by apply get_canvas_cell|]. split.
  - intros Hnone. rewrite (reachable_unpainted_blank d Hd (x, y) row Hrow Hnone). done.
  - intros user_id Hed.
    destruct (reachable_editors_exist d Hd (x, y) row user_id Hrow Hed) as [u Hu].
    exists u. split; [done|]. rewrite Hed. simpl. by rewrite Hu.
Qed.

Lemma get_pixel_details_reachable_witness :
  ∃ details,
    get_pixel_details 3 4 db_funded = Ok (Some details)
    ∧ PixelDetails.x details = 3 ∧ PixelDetails.y details = 4
    ∧ get_canvas db_funded !! Z.to_nat (4 * 32 + 3) = Some (PixelDetails.color details)
    ∧ (PixelDetails.last_user_id details = None →
       PixelDetails.color details = 0
       ∧ PixelDetails.last_modified details = 0
       ∧ PixelDetails.username details = None)
    ∧ (∀ user_id, PixelDetails.last_user_id details = Some user_id →
         ∃ u, users db_funded !! user_id = Some u
              ∧ PixelDetails.username details = Some (Users.username u)).
Proof.
  apply (get_pixel_details_reachable 3 4 db_funded); [|lia|lia].
  unfold db_funded. apply reachable_step. unfold db_registered.
  apply reachable_step. apply reachable_init.
Defined.

(** ** Balances and recorded proofs *)

Lemma proofs_of_mono user_id d d' :
  review_proofs d ⊆ review_proofs d' → proofs_of user_id d ⊆ proofs_of user_id d'.
Proof.
  intros Hsub k. unfold proofs_of. rewrite !elem_of_filter. intros [? ?]. auto.
Qed.

Lemma length_filter_all {A} (P : A → Prop) `{!∀ x, Decision (P x)} (l : list A) :
  Forall P l → length (filter P l) = length l.
Proof.
  induction 1 as [|x l Hx _ IH]; [done|].
  rewrite filter_cons, decide_True by done. simpl. by rewrite IH.
Qed.

(** What a successful submission adds to the rows of its user, and that it
    takes none from the rows of any user. *)
Lemma recorded_submitted (who user_id : string) (K : gset (string * Z * Z))
    (N : list (string * Z)) (d d' : db) :
  review_proofs d' = K ∪ review_proofs d →
  review_proofs_null d' = review_proofs_null d ++ N →
  (∀ k, k ∈ K → k.1.1 = user_id) → (∀ r, r ∈ N → r.1 = user_id) →
  (recorded who d ≤ recorded who d')%nat
  ∧ (size (K ∖ review_proofs d) + length N + recorded user_id d
     ≤ recorded user_id d')%nat.
Proof.
  intros Hps Hns HK HN. unfold recorded, null_proofs_of. rewrite Hns, !filter_app.
  rewrite !length_app. split.
  - assert (proofs_of who d ⊆ proofs_of who d') as Hsub%subseteq_size; [|lia].
    apply proofs_of_mono. rewrite Hps. apply union_subseteq_r.
  - rewrite (length_filter_all (λ r, r.1 = user_id) N) by (by apply Forall_forall).
    assert (K ∖ review_proofs d ∪ proofs_of user_id d ⊆ proofs_of user_id d')
      as Hsub%subseteq_size.
    { intros k [[Hk Hn]%elem_of_difference|Hk]%elem_of_union.
      - unfold proofs_of. rewrite Hps. apply elem_of_filter. split; [by apply HK|].
        by apply elem_of_union_l.
      - revert Hk. apply proofs_of_mono. rewrite Hps. apply union_subseteq_r. }
    assert (size (K ∖ review_proofs d ∪ proofs_of user_id d)
            = (size (K ∖ review_proofs d) + size (proofs_of user_id d))%nat) as Hsz.
    { apply size_union. intros k [_ Hn]%elem_of_difference Hk.
      unfold proofs_of in Hk. apply elem_of_filter in Hk as [_ Hk]. done. }
    lia.
Qed.

Lemma balances_backed_handle req d : balances_backed d → balances_backed (handle req d).
Proof.
  intros Hinv.
  destruct req as [user new_id ts|submission|pixel ts| | | |]; cbn [handle]; try done.
  - destruct (register_user_db user new_id ts d) as [->|[_ ->]]; [done|].
    intros who u. simpl. rewrite lookup_insert. case_decide.
    + intros [= <-]. simpl. lia.
    + apply Hinv.
  - destruct (users d !! ReviewSubmission.user_id submission) as [u0|] eqn:Hu0.
    2:{ by rewrite submit_reviews_unknown. }
    destruct (decide (sqlite_ints (ReviewSubmission.proofs submission))) as [Hints|Hints].
    2:{ by rewrite (submit_reviews_overflow submission d u0). }
    rewrite (submit_reviews_closed submission d u0 Hu0 Hints). cbn [snd].
    set (uid := ReviewSubmission.user_id submission) in *.
    set (K := proof_keys uid (ReviewSubmission.proofs submission)).
    set (N := null_rows uid (ReviewSubmission.proofs submission)).
    set (n := Z.of_nat (size (K ∖ review_proofs d) + length N)).
    set (d' := add_paint_balance _ uid _).
    intros who u.
    destruct (recorded_submitted who uid K N d d')
      as [Hmono Hgrow]; [done|done|apply proof_keys_user|apply null_rows_user|].
    unfold d'. rewrite users_add_paint_balance. cbn [users]. fold d'.
    case_decide as Hwho.
    + subst who. rewrite Hu0. simpl. intros [= <-]. simpl.
      specialize (Hinv uid u0 Hu0). pose proof (Z.mul_div_le n 10). lia.
    + intros Hu. specialize (Hinv who u Hu). lia.
  - destruct (paint_pixel_db pixel ts d) as [->|[(u0 & Hu0 & Hb) ->]]; [done|].
    intros who u. unfold painted. rewrite users_add_paint_balance. simpl.
    change (recorded who _) with (recorded who d).
    case_decide; [|apply Hinv]. subst who. rewrite Hu0. simpl.
    intros [= <-]. simpl. specialize (Hinv _ u0 Hu0). lia.
Qed.

Lemma reachable_balances_backed d : reachable d → balances_backed d.
Proof.
  induction 1 as [|req d _ IH]; [|by apply balances_backed_handle].
  intros who u. destruct init_db_empty as (-> & _). by rewrite lookup_empty.
Qed.

(** X14.  Paint is never created from nothing: in every reachable state ten
    times a user's balance is at most the number of rows recorded for that
    user in the table of proofs. *)
Theorem balance_backed_by_proofs (d : db) (user_id : string) (b : Z) :
  reachable d →
  balance user_id d = Some b →
  10 * b ≤ Z.of_nat (recorded user_id d).
Proof.
  intros Hinv%reachable_balances_backed (u & Hu & <-)%balance_Some.
  by apply Hinv.
Qed.

Lemma balance_backed_by_proofs_witness :
  10 * 2 ≤ Z.of_nat (recorded bob db_funded).
Proof.
  apply (balance_backed_by_proofs db_funded bob 2).
  - unfold db_funded. apply reachable_step. unfold db_registered.
    apply reachable_step. apply reachable_init.
  - vm_compute; reflexivity.
Defined.

(** ** Spending, refusals, bounds *)

Lemma run_cons req reqs d : run (req :: reqs) d = run reqs (handle req d).
Proof. done. Qed.

(** X15.  A run of paint requests by one user, each in range, spends the
    balance down one credit per request until it is 0 and not below: from a
    balance b >= 0, after k requests the balance is max 0 (b - k). *)
Theorem paints_spend_down (user_id : string) (paints : list (PixelUpdate.t * Z))
    (d : db) (b : Z) :
  balance user_id d = Some b → 0 ≤ b →
  Forall (λ p, in_grid p.1 ∧ in_palette p.1 ∧ PixelUpdate.user_id p.1 = user_id)
         paints →
  balance user_id (run ((λ p, POST_paint p.1 p.2) <$> paints) d)
  = Some (Z.max 0 (b - Z.of_nat (length paints))).
Proof.
  intros Hb Hpos Hall. revert d b Hb Hpos.
  induction Hall as [|[pixel ts] paints (Hg & Hc & Huid) _ IH]; intros d b Hb Hpos.
  - simpl. rewrite Hb. f_equal. lia.
  - simpl in Hg, Hc, Huid. subst user_id.
    rewrite fmap_cons, run_cons. cbn [handle fst snd].
    pose proof Hb as (u & Hu & Hbal)%balance_Some.
    destruct (decide (b = 0)) as [->|Hne].
    + rewrite (paint_pixel_insufficient pixel ts d u) by (done || lia). cbn [snd].
      rewrite (IH d 0) by done. f_equal. simpl length. lia.
    + rewrite (paint_pixel_success pixel ts d u) by (done || lia). cbn [snd].
      rewrite (IH (painted pixel ts d) (b - 1)).
      * f_equal. simpl length. lia.
      * by rewrite balance_painted, Hb.
      * lia.
Qed.

Lemma paints_spend_down_witness :
  balance bob
    (run ((λ p, POST_paint p.1 p.2)
            <$> [(PixelUpdate.mk 3 4 5 bob, 300); (PixelUpdate.mk 0 0 15 bob, 301);
                 (PixelUpdate.mk 31 31 1 bob, 302)]) db_funded)
  = Some 0.
Proof.
  refine (paints_spend_down bob
            [(PixelUpdate.mk 3 4 5 bob, 300); (PixelUpdate.mk 0 0 15 bob, 301);
             (PixelUpdate.mk 31 31 1 bob, 302)] db_funded 2 _ _ _).
  - vm_compute; reflexivity.
  - lia.
  - repeat constructor; simpl; lia.
Defined.

(** X16.  A request that ends in an exception changes nothing, whichever
    exception it is: a refused paint, a refused registration and a
    submission that is refused or fails all leave the database as it was. *)
Theorem refused_request_changes_nothing (d d' : db) (e : exn) :
  (∀ pixel timestamp, paint_pixel pixel timestamp d = (Raise e, d') → d' = d)
  ∧ (∀ user new_id timestamp,
       register_user user new_id timestamp d = (Raise e, d') → d' = d)
  ∧ (∀ submission, submit_reviews submission d = (Raise e, d') → d' = d).
Proof.
  split; [|split].
  - intros pixel timestamp. apply paint_pixel_Raise.
  - intros user new_id timestamp. unfold register_user, insert_user. simpl.
    destruct (users d !! new_id); [by intros [= _ <-]|done].
  - intros submission.
    destruct (users d !! ReviewSubmission.user_id submission) as [u|] eqn:Hu.
    2:{ rewrite submit_reviews_unknown by done. by intros [= _ <-]. }
    destruct (decide (sqlite_ints (ReviewSubmission.proofs submission))) as [Hints|Hints].
    + by rewrite (submit_reviews_closed submission d u Hu Hints).
    + rewrite (submit_reviews_overflow submission d u) by done. by intros [= _ <-].
Qed.

Lemma refused_request_changes_nothing_witness :
  (paint_pixel (PixelUpdate.mk 32 0 16 bob) 300 db_funded).2 = db_funded.
Proof.
  refine (proj1 (refused_request_changes_nothing db_funded
                   (paint_pixel (PixelUpdate.mk 32 0 16 bob) 300 db_funded).2
                   OutOfBounds) (PixelUpdate.mk 32 0 16 bob) 300 _).
  apply pair_fst_eq. vm_compute; reflexivity.
Defined.

(** X17.  In every successful submission new_count lies between 0 and the
    length of the batch, and the award is at least 0 and no more than a tenth
    of new_count. *)
Theorem submit_result_bounds (submission : ReviewSubmission.t) (d d' : db)
    (r : SubmitResult.t) :
  submit_reviews submission d = (Ok r, d') →
  0 ≤ SubmitResult.new_proofs r ≤ Z.of_nat (length (ReviewSubmission.proofs submission))
  ∧ 0 ≤ SubmitResult.paint_awarded r
  ∧ 10 * SubmitResult.paint_awarded r ≤ SubmitResult.new_proofs r.
Proof.
  destruct (users d !! ReviewSubmission.user_id submission) as [u|] eqn:Hu.
  2:{ by rewrite submit_reviews_unknown. }
  destruct (decide (sqlite_ints (ReviewSubmission.proofs submission))) as [Hints|Hints].
  2:{ by rewrite (submit_reviews_overflow submission d u). }
  rewrite (submit_reviews_closed submission d u Hu Hints). intros [= <- _]. simpl.
  pose proof (record_proofs_closed (ReviewSubmission.user_id submission)
                (ReviewSubmission.proofs submission) (get_db_connection d) 0 Hints)
    as Hle%record_proofs_bounds.
  cbn [get_db_connection txn] in Hle. set (n := Z.of_nat _) in *.
  pose proof (Z.mul_div_le n 10). pose proof (Z.div_pos n 10). lia.
Qed.

Lemma submit_result_bounds_witness :
  0 ≤ 10 ≤ Z.of_nat (length (cards 20 10 ++ cards 20 10))
  ∧ 0 ≤ 1 ∧ 10 * 1 ≤ 10.
Proof.
  refine (submit_result_bounds
            (ReviewSubmission.mk bob (cards 20 10 ++ cards 20 10)) db_registered
            (submit_reviews (ReviewSubmission.mk bob (cards 20 10 ++ cards 20 10))
               db_registered).2
            (SubmitResult.mk 10 1) _).
  apply pair_fst_eq. vm_compute; reflexivity.
Defined.


(** X19.  For an existing user and a proof list whose card identifiers fit
    an INTEGER and whose timestamps are numbers, the first submission
    succeeds, a second submission of the same list succeeds with
    new_count = 0 and awarded = 0 and changes nothing, and after both the
    balance is the one before plus what the first call awarded. *)
Theorem submit_idempotent (submission : ReviewSubmission.t) (d : db) (b : Z) :
  balance (ReviewSubmission.user_id submission) d = Some b →
  sqlite_ints (ReviewSubmission.proofs submission) →
  numbers (ReviewSubmission.proofs submission) →
  ∃ r1 d1 d2,
    submit_reviews submission d = (Ok r1, d1)
    ∧ submit_reviews submission d1 = (Ok (SubmitResult.mk 0 0), d2)
    ∧ d2 = d1
    ∧ balance (ReviewSubmission.user_id submission) d2
      = Some (b + SubmitResult.paint_awarded r1).
Proof.
  intros Hb Hints Hnum. pose proof Hb as (u & Hu & _)%balance_Some.
  set (uid := ReviewSubmission.user_id submission) in *.
  pose proof (submit_reviews_closed submission d u Hu Hints) as Hs1.
  cbv zeta in Hs1. fold uid in Hs1. rewrite (numbers_null_rows uid) in Hs1 by done.
  rewrite app_nil_r in Hs1.
  set (K := proof_keys uid (ReviewSubmission.proofs submission)) in *.
  set (n := Z.of_nat (size (K ∖ review_proofs d) + length [])) in *.
  set (d1 := add_paint_balance (n `div` 10) uid
               (mkdb (canvas d) (users d) (K ∪ review_proofs d) (review_proofs_null d)))
    in *.
  assert (balance uid d1 = Some (b + n `div` 10)) as Hb1.
  { unfold d1. rewrite balance_add_paint_balance.
    rewrite (balance_users_eq uid d) by done. by rewrite Hb. }
  pose proof Hb1 as (u1 & Hu1 & _)%balance_Some.
  exists (SubmitResult.mk n (n `div` 10)), d1, d1.
  split; [done|]. split; [|done].
  rewrite (submit_reviews_closed submission d1 u1 Hu1 Hints). fold uid K.
  rewrite (numbers_null_rows uid) by done. rewrite app_nil_r.
  assert (K ∖ review_proofs d1 = ∅) as ->.
  { unfold d1. cbn [add_paint_balance review_proofs]. apply set_eq. intros k.
    rewrite elem_of_difference, elem_of_union, elem_of_empty. tauto. }
  rewrite size_empty. simpl. rewrite add_paint_balance_0. f_equal.
  apply db_eq; try done. simpl.
  apply set_eq. intros k. unfold d1. cbn [add_paint_balance review_proofs].
  rewrite !elem_of_union. tauto.
Qed.

Lemma submit_idempotent_witness :
  ∃ r1 d1 d2,
    submit_reviews (ReviewSubmission.mk bob (cards 0 25)) db_registered = (Ok r1, d1)
    ∧ submit_reviews (ReviewSubmission.mk bob (cards 0 25)) d1
      = (Ok (SubmitResult.mk 0 0), d2)
    ∧ d2 = d1
    ∧ balance bob d2 = Some (0 + SubmitResult.paint_awarded r1).
Proof.
  apply (submit_idempotent (ReviewSubmission.mk bob (cards 0 25)) db_registered 0).
  - vm_compute; reflexivity.
  - apply (bool_decide_unpack _). vm_compute. exact I.
  - apply (bool_decide_unpack _). vm_compute. exact I.
Defined.
